(** * Agent-skills plugin: descriptor parser, marketplace installer, active-skill store

    A shallow embedding of [examples/plugins/agent-skills/lib]
    ([parser.py], [marketplace.py], [state.py]) and the properties of it
    that the specification states.

    Conventions of the embedding.
    - A Python [str] is a [string]; its characters stand for the code points
      below 256.  Text with other code points is outside the model.
    - A Python call yields an [outcome]: a returned value or a raised
      exception.  Functions with effects thread the state they act on.
    - Library calls whose code is not part of the repository
      ([yaml.safe_load], the [git] executable, the text of an exception) are
      section variables; [re], [str], [pathlib], [shutil] and [json] are
      modelled on the part of their behaviour the plugin relies on. *)

From Stdlib Require Import String Ascii ZArith List Lia Bool DecimalString.
From Stdlib Require Import Sorted Permutation.
From stdpp Require Import base option list gmap strings.

Local Open Scope string_scope.

(** ** Outcomes of Python calls *)

Inductive exn :=
| YAMLError
| AttributeError
| TypeError
| FileExistsError
| FileNotFoundError
| NotADirectoryError
| IsADirectoryError
| ShutilError
| OSError.

Inductive outcome (A : Type) :=
| Ret (a : A)
| Raise (e : exn).
Arguments Ret {A} a.
Arguments Raise {A} e.

Definition obind {A B} (m : outcome A) (k : A -> outcome B) : outcome B :=
  match m with
  | Ret a => k a
  | Raise e => Raise e
  end.

Notation "'let!' x ':=' m 'in' k" := (obind m (fun x => k))
  (at level 10, x name, m at level 100, k at level 200).

Definition returns {A} (m : outcome A) : Prop := exists a, m = Ret a.

(** ** Strings *)

Module Str.

Definition nl : ascii := ascii_of_nat 10.
Definition dquote : ascii := ascii_of_nat 34.
Definition slash : ascii := ascii_of_nat 47.

(** [str.isspace] on one character, which is also the class [\s] of [re]
    for text patterns: TAB..CR, FS..US, SPACE, NEL, NBSP. *)
Definition is_space (c : ascii) : bool :=
  let n := nat_of_ascii c in
  ((9 <=? n)%nat && (n <=? 13)%nat) || ((28 <=? n)%nat && (n <=? 32)%nat)
  || (n =? 133)%nat || (n =? 160)%nat.

Fixpoint all_chars (f : ascii -> bool) (s : string) : bool :=
  match s with
  | "" => true
  | String c r => f c && all_chars f r
  end.

(** [s] is made of whitespace only *)
Definition all_space (s : string) : Prop := all_chars is_space s = true.

(** [s] does not begin with whitespace *)
Definition starts_clean (s : string) : Prop :=
  match s with
  | "" => True
  | String c _ => is_space c = false
  end.

Fixpoint last_char (s : string) : option ascii :=
  match s with
  | "" => None
  | String c "" => Some c
  | String _ r => last_char r
  end.

(** [s] does not end with whitespace *)
Definition ends_clean (s : string) : Prop :=
  match last_char s with
  | None => True
  | Some c => is_space c = false
  end.

Fixpoint lstrip (s : string) : string :=
  match s with
  | "" => ""
  | String c r => if is_space c then lstrip r else s
  end.

Fixpoint rstrip (s : string) : string :=
  match s with
  | "" => ""
  | String c r =>
      match rstrip r with
      | "" => if is_space c then "" else String c ""
      | r' => String c r'
      end
  end.

(** [s.strip()] *)
Definition strip (s : string) : string := rstrip (lstrip s).

(** [s.rstrip(ch)] for a one-character argument *)
Fixpoint rstrip_char (ch : ascii) (s : string) : string :=
  match s with
  | "" => ""
  | String c r =>
      match rstrip_char ch r with
      | "" => if Ascii.eqb c ch then "" else String c ""
      | r' => String c r'
      end
  end.

(** [ch in s] *)
Fixpoint contains (ch : ascii) (s : string) : bool :=
  match s with
  | "" => false
  | String c r => Ascii.eqb c ch || contains ch r
  end.

(** [s.split(ch)]: never empty, one more piece than there are separators *)
Fixpoint split (ch : ascii) (s : string) : list string :=
  match s with
  | "" => [""]
  | String c r =>
      if Ascii.eqb c ch then "" :: split ch r
      else match split ch r with
           | h :: t => String c h :: t
           | [] => [String c ""]
           end
  end.

(** [s.split(ch, 1)] when [ch in s]: the text before and after the first
    separator; [None] when there is no separator. *)
Fixpoint split_once (ch : ascii) (s : string) : option (string * string) :=
  match s with
  | "" => None
  | String c r =>
      if Ascii.eqb c ch then Some ("", r)
      else match split_once ch r with
           | Some (a, b) => Some (String c a, b)
           | None => None
           end
  end.

(** [l[-1]] on a list of strings *)
Definition last_piece (l : list string) : string := List.last l "".

(** [s.startswith(p)] *)
Definition startswith (p s : string) : bool := String.prefix p s.

(** [s[len(p):]] when [s.startswith(p)] *)
Fixpoint strip_prefix (p s : string) : option string :=
  match p, s with
  | "", _ => Some s
  | String a p', String b s' => if Ascii.eqb a b then strip_prefix p' s' else None
  | _, _ => None
  end.

(** lines, each closed by a newline *)
Fixpoint unlines (l : list string) : string :=
  match l with
  | [] => ""
  | x :: r => x ++ String nl (unlines r)
  end.

Definition quoted (s : string) : string :=
  String dquote (s ++ String dquote "").

End Str.

(** ** Python values, as far as YAML and JSON documents produce them *)

Inductive pyval :=
| PNone
| PBool (b : bool)
| PInt (z : Z)
| PFloat (nonzero : bool) (lexeme : string)
| PStr (s : string)
| PList (l : list pyval)
| PDict (items : list (pyval * pyval)).

(** truth value: [not v] is [negb (truthy v)] *)
Definition truthy (v : pyval) : bool :=
  match v with
  | PNone => false
  | PBool b => b
  | PInt z => negb (z =? 0)%Z
  | PFloat nz _ => nz
  | PStr s => negb (String.eqb s "")
  | PList l => match l with [] => false | _ => true end
  | PDict d => match d with [] => false | _ => true end
  end.

(** [len(v)] *)
Definition py_len (v : pyval) : outcome nat :=
  match v with
  | PStr s => Ret (String.length s)
  | PList l => Ret (List.length l)
  | PDict d => Ret (List.length d)
  | _ => Raise TypeError
  end.

(** lookup of a text key in the items of a [dict] *)
Fixpoint dict_get (key : string) (items : list (pyval * pyval)) : option pyval :=
  match items with
  | [] => None
  | (PStr k, v) :: r => if String.eqb k key then Some v else dict_get key r
  | _ :: r => dict_get key r
  end.

(** [v.get(key)]: only a [dict] has the method; an absent key gives [None] *)
Definition py_get (v : pyval) (key : string) : outcome pyval :=
  match v with
  | PDict items => Ret (default PNone (dict_get key items))
  | _ => Raise AttributeError
  end.

(** ** The file tree

    Files and directories, as [pathlib], [os] and [shutil] see them.  A
    path is the list of its components below the root of the tree.  The
    tree has no links, owners or permissions, and keeps no entries for
    [..]: a path through [..] does not resolve in it. *)

Module Fs.
Import Str.

Inductive node :=
| File (text : string)
| Dir (kids : gmap string node).

Definition path := list string.

(** the components [pathlib] keeps of a segment: empty ones and [.] go *)
Definition parts (s : string) : path :=
  List.filter (fun c => negb (String.eqb c "") && negb (String.eqb c "."))
              (split slash s).

(** [p / s]: an absolute [s] replaces [p] *)
Definition path_div (p : path) (s : string) : path :=
  if startswith "/" s then parts s else (p ++ parts s)%list.

(** [str(p)] *)
Definition str_path (p : path) : string :=
  match p with
  | [] => "/"
  | _ => String.concat "" (List.map (fun c => String slash c) p)
  end.

Definition kids_of (n : node) : gmap string node :=
  match n with
  | Dir kids => kids
  | File _ => ∅
  end.

Fixpoint lookup (n : node) (p : path) : option node :=
  match p with
  | [] => Some n
  | c :: p' =>
      match kids_of n !! c with
      | Some k => lookup k p'
      | None => None
      end
  end.

(** [p.exists()] *)
Definition path_exists (n : node) (p : path) : bool :=
  match lookup n p with
  | Some _ => true
  | None => false
  end.

(** [p.is_dir()] *)
Definition is_dir (n : node) (p : path) : bool :=
  match lookup n p with
  | Some (Dir _) => true
  | _ => false
  end.

(** [p.mkdir(parents=True, exist_ok=True)]: the missing directories of [p]
    are made; a regular file at [p] or above it makes the call raise. *)
Fixpoint mkdir_parents (n : node) (p : path) : outcome node :=
  match n, p with
  | File _, [] => Raise FileExistsError
  | File _, _ :: _ => Raise NotADirectoryError
  | Dir _, [] => Ret n
  | Dir kids, c :: p' =>
      let! k := mkdir_parents (default (Dir ∅) (kids !! c)) p' in
      Ret (Dir (<[c := k]> kids))
  end.

(** [x] put at [p]; what [p] needs above it becomes a directory *)
Fixpoint graft (n : node) (p : path) (x : node) : node :=
  match p with
  | [] => x
  | c :: p' =>
      Dir (<[c := graft (default (Dir ∅) (kids_of n !! c)) p' x]> (kids_of n))
  end.

(** the entry at [p] taken out, with all below it; the root stays *)
Fixpoint prune (n : node) (p : path) : node :=
  match p with
  | [] => n
  | [c] =>
      match n with
      | Dir kids => Dir (delete c kids)
      | File _ => n
      end
  | c :: p' =>
      match n with
      | Dir kids =>
          match kids !! c with
          | Some k => Dir (<[c := prune k p']> kids)
          | None => n
          end
      | File _ => n
      end
  end.

(** [shutil.rmtree(p)]: the root is emptied but cannot itself be removed *)
Definition rmtree (n : node) (p : path) : outcome unit * node :=
  match lookup n p with
  | None => (Raise FileNotFoundError, n)
  | Some (File _) => (Raise NotADirectoryError, n)
  | Some (Dir _) =>
      match p with
      | [] => (Raise OSError, Dir ∅)
      | _ => (Ret tt, prune n p)
      end
  end.

Definition parent (p : path) : path := removelast p.

Definition basename (p : path) : string := List.last p "".

Fixpoint is_prefix (p q : path) : bool :=
  match p, q with
  | [], _ => true
  | a :: p', b :: q' => String.eqb a b && is_prefix p' q'
  | _ :: _, [] => false
  end.

(** [shutil.move(src, dst)].  Into an existing directory [dst] the source
    goes under its own name; the rename, or the copy that replaces a
    failed rename, makes the missing parents of a moved directory. *)
Definition move (n : node) (src dst : path) : outcome unit * node :=
  match lookup n src with
  | None => (Raise FileNotFoundError, n)
  | Some x =>
      if is_dir n dst && is_prefix src dst && is_prefix dst src then (Ret tt, n)
      else
        let real_dst := if is_dir n dst then (dst ++ [basename src])%list else dst in
        if is_dir n dst && path_exists n real_dst then (Raise ShutilError, n)
        else
          match x with
          | Dir _ =>
              if is_prefix src real_dst then (Raise ShutilError, n)
              else if path_exists n real_dst then (Raise FileExistsError, n)
              else
                match mkdir_parents n (parent real_dst) with
                | Raise e => (Raise e, n)
                | Ret _ => (Ret tt, graft (prune n src) real_dst x)
                end
          | File _ =>
              if is_dir n (parent real_dst)
              then (Ret tt, graft (prune n src) real_dst x)
              else (Raise FileNotFoundError, n)
          end
  end.

End Fs.
(** ** parser.py *)

Module Parser.
Import Str Fs.

(** [class Skill] *)
Record Skill := {
  name : string;
  description : pyval;
  body : string;
  allowed_tools : pyval;
  license : pyval;
  compatibility : pyval;
  metadata : pyval
}.

(** *** The two patterns

    [re.match] tries the alternatives of a pattern in a fixed order and
    keeps the first that succeeds; the matchers below enumerate the
    alternatives in that order. *)

(** [\s*\n] at the head of [s]: the texts that may follow it, the longest
    run of [\s*] first. *)
Fixpoint after_blank_newline (s : string) : list string :=
  match s with
  | "" => []
  | String c r =>
      if is_space c
      then after_blank_newline r ++ (if Ascii.eqb c nl then [r] else [])
      else []
  end.

Definition closing : string := String nl "---".

(** [\n---\s*\n] at the head of [s]: the text after it *)
Definition closing_delimiter (s : string) : option string :=
  match strip_prefix closing s with
  | Some r => head (after_blank_newline r)
  | None => None
  end.

(** [(.*?)\n---\s*\n] with DOTALL: the shortest group first.  Gives group 1
    and the text after the match. *)
Fixpoint lazy_group (s : string) : option (string * string) :=
  match closing_delimiter s with
  | Some rest => Some ("", rest)
  | None =>
      match s with
      | "" => None
      | String c r =>
          match lazy_group r with
          | Some (g, rest) => Some (String c g, rest)
          | None => None
          end
      end
  end.

Fixpoint first_success {A B} (f : A -> option B) (l : list A) : option B :=
  match l with
  | [] => None
  | x :: r => match f x with Some y => Some y | None => first_success f r end
  end.

(** [re.match(r'^---\s*\n(.*?)\n---\s*\n', content, re.DOTALL)]:
    [Some (m.group(1), content[m.end():])], or [None] without a match. *)
Definition frontmatter_match (content : string) : option (string * string) :=
  match strip_prefix "---" content with
  | Some r => first_success lazy_group (after_blank_newline r)
  | None => None
  end.

Definition is_lower_or_digit (c : ascii) : bool :=
  let n := nat_of_ascii c in
  ((97 <=? n)%nat && (n <=? 122)%nat) || ((48 <=? n)%nat && (n <=? 57)%nat).

Definition dash : ascii := ascii_of_nat 45.

(** Where the scan of [^[a-z0-9]+(-[a-z0-9]+)*$] stands: nothing read yet,
    inside a run of [[a-z0-9]], or just after a dash. *)
Inductive name_state := AtStart | InWord | AfterDash.

(** The rest [s] of the text completes a match from state [st].  [$] holds
    at the end of the text and before a newline that ends it. *)
Fixpoint name_scan (st : name_state) (s : string) : bool :=
  match s with
  | "" => match st with InWord => true | _ => false end
  | String c r =>
      if is_lower_or_digit c then name_scan InWord r
      else match st with
           | InWord =>
               if Ascii.eqb c dash then name_scan AfterDash r
               else Ascii.eqb c nl && String.eqb r ""
           | _ => false
           end
  end.

(** [re.match(r'^[a-z0-9]+(-[a-z0-9]+)*$', s)] finds a match *)
Definition name_pattern (s : string) : bool := name_scan AtStart s.

(** the text a pattern is matched against: [re.match] raises on a value
    that is not text *)
Definition subject (v : pyval) : outcome string :=
  match v with
  | PStr s => Ret s
  | _ => Raise TypeError
  end.

Section WithYaml.

(** [yaml.safe_load]: the loaded value, or the exception it raises *)
Variable safe_load : string -> outcome pyval.

(** [parse_skill] from [content = skill_path.read_text()] on *)
Definition parse_content (content : string) : outcome (option Skill) :=
  match frontmatter_match content with
  | None => Ret None
  | Some (group1, rest) =>
      match safe_load group1 with
      | Raise YAMLError => Ret None
      | Raise e => Raise e
      | Ret frontmatter =>
          let! name_v := py_get frontmatter "name" in
          let! description_v := py_get frontmatter "description" in
          if negb (truthy name_v) || negb (truthy description_v) then Ret None
          else
            let! name_s := subject name_v in
            if negb (name_pattern name_s) then Ret None
            else
              let! too_long :=
                (if (64 <? String.length name_s)%nat then Ret true
                 else let! description_len := py_len description_v in
                      Ret (1024 <? description_len)%nat) in
              if (too_long : bool) then Ret None
              else
                let! allowed := py_get frontmatter "allowed-tools" in
                let! lic := py_get frontmatter "license" in
                let! compat := py_get frontmatter "compatibility" in
                let! meta := py_get frontmatter "metadata" in
                Ret (Some {| name := name_s;
                             description := description_v;
                             body := strip rest;
                             allowed_tools := allowed;
                             license := lic;
                             compatibility := compat;
                             metadata := meta |})
      end
  end.

(** [parse_skill(skill_path)] *)
Definition parse_skill (fs : node) (skill_path : path) : outcome (option Skill) :=
  match lookup fs skill_path with
  | None => Ret None
  | Some (Dir _) => Raise IsADirectoryError
  | Some (File content) => parse_content content
  end.

(** [sorted(skills, key=lambda s: s.name)]: a stable sort, here by
    insertion from the right. *)
Fixpoint insert_by_name (x : Skill) (l : list Skill) : list Skill :=
  match l with
  | [] => [x]
  | y :: r =>
      if String.leb (name x) (name y) then x :: l else y :: insert_by_name x r
  end.

Definition sorted_by_name (l : list Skill) : list Skill :=
  List.fold_right insert_by_name [] l.

(** the body of the loop of [list_skills] on one entry of the directory:
    the skill to append, if any *)
Definition visit (fs : node) (skills_dir : path) (entry : string * node)
  : outcome (option Skill) :=
  match entry.2 with
  | Dir _ =>
      if negb (startswith "." entry.1)
      then parse_skill fs (path_div (skills_dir ++ [entry.1])%list "SKILL.md")
      else Ret None
  | File _ => Ret None
  end.

(** the loop of [list_skills] over the entries, in the order [iterdir]
    gives them *)
Fixpoint visit_all (fs : node) (skills_dir : path) (entries : list (string * node))
  : outcome (list Skill) :=
  match entries with
  | [] => Ret []
  | entry :: r =>
      let! found := visit fs skills_dir entry in
      let! skills := visit_all fs skills_dir r in
      Ret (match found with Some sk => sk :: skills | None => skills end)
  end.

(** [list_skills(skills_dir)], with the entries of the directory visited
    in the order of [map_to_list].  [Path.iterdir] promises no order:
    [list_skills_listed] below leaves it open. *)
Definition list_skills (fs : node) (skills_dir : path) : outcome (list Skill) :=
  match lookup fs skills_dir with
  | None => Ret []
  | Some (File _) => Raise NotADirectoryError
  | Some (Dir kids) =>
      let! skills := visit_all fs skills_dir (map_to_list kids) in
      Ret (sorted_by_name skills)
  end.

(** [list_skills(skills_dir)] on a file system whose [iterdir] gives the
    entries of a directory in the order [iterdir kids] *)
Definition list_skills_listed (iterdir : gmap string node -> list (string * node))
  (fs : node) (skills_dir : path) : outcome (list Skill) :=
  match lookup fs skills_dir with
  | None => Ret []
  | Some (File _) => Raise NotADirectoryError
  | Some (Dir kids) =>
      let! skills := visit_all fs skills_dir (iterdir kids) in
      Ret (sorted_by_name skills)
  end.

End WithYaml.

End Parser.

(** ** A loader for a fragment of YAML

    [flat_yaml] agrees with [yaml.safe_load] on the documents of a small
    fragment: the empty document, one scalar, or a block mapping of
    [key: value] lines with distinct plain-word keys and scalar values.
    A scalar is a plain word (resolved to a truth value or to null where
    YAML 1.1 does so), a decimal number, or double-quoted text without
    escapes.  Every other document is outside the fragment: [flat_yaml]
    refuses it, also where [yaml.safe_load] loads a value (a plain scalar
    such as [123abc], a nested or flow collection, a block scalar).  The
    fragment serves to run the parser on concrete descriptors; the
    statements about the parser hold for every loader. *)

Module Yaml.
Import Str.

Definition is_lower (c : ascii) : bool :=
  let n := nat_of_ascii c in (97 <=? n)%nat && (n <=? 122)%nat.

Definition is_digit (c : ascii) : bool :=
  let n := nat_of_ascii c in (48 <=? n)%nat && (n <=? 57)%nat.

Definition is_word_char (c : ascii) : bool :=
  is_lower c || is_digit c || Ascii.eqb c (ascii_of_nat 45).

(** plain words that YAML 1.1 resolves to a truth value or to null *)
Definition reserved (s : string) : bool :=
  existsb (String.eqb s) ["true"; "false"; "yes"; "no"; "on"; "off"; "null"].

(** a plain scalar resolved to text *)
Definition plain_word (s : string) : bool :=
  match s with
  | "" => false
  | String c r => is_lower c && all_chars is_word_char r && negb (reserved s)
  end.

(** a decimal number without sign or leading zero *)
Definition decimal (s : string) : option Z :=
  match s with
  | "" => None
  | String c r =>
      if all_chars is_digit s && (String.eqb s "0" || negb (Ascii.eqb c "0"%char))
      then Some (Z.of_nat
             (fold_left (fun acc d => 10 * acc + (nat_of_ascii d - 48))%nat
                        (list_ascii_of_string s) 0%nat))
      else None
  end.

(** the text between double quotes, when it holds no quote and no backslash *)
Definition quoted_text (s : string) : option string :=
  match s with
  | String q r =>
      match strip_prefix (String dquote "") (String.rev r) with
      | Some inner =>
          if Ascii.eqb q dquote
             && all_chars (fun c => negb (Ascii.eqb c dquote)
                                    && negb (Ascii.eqb c (ascii_of_nat 92))
                                    && (32 <=? nat_of_ascii c)%nat
                                    && (nat_of_ascii c <=? 126)%nat) inner
          then Some (String.rev inner)
          else None
      | None => None
      end
  | "" => None
  end.

(** what YAML 1.1 makes of a reserved word *)
Definition resolved (s : string) : option pyval :=
  if existsb (String.eqb s) ["true"; "yes"; "on"] then Some (PBool true)
  else if existsb (String.eqb s) ["false"; "no"; "off"] then Some (PBool false)
  else if String.eqb s "null" then Some PNone
  else None.

Definition scalar (s : string) : option pyval :=
  match quoted_text s with
  | Some t => Some (PStr t)
  | None =>
      match resolved s with
      | Some v => Some v
      | None =>
          if plain_word s then Some (PStr s)
          else match decimal s with
               | Some z => Some (PInt z)
               | None => None
               end
      end
  end.

(** [key: value] *)
Fixpoint key_value (line : string) : option (string * string) :=
  match line with
  | "" => None
  | String c r =>
      match strip_prefix ": " line with
      | Some v => Some ("", v)
      | None =>
          match key_value r with
          | Some (k, v) => Some (String c k, v)
          | None => None
          end
      end
  end.

Definition entry (line : string) : option (string * pyval) :=
  match key_value line with
  | Some (k, v) =>
      if plain_word k
      then match scalar v with Some x => Some (k, x) | None => None end
      else None
  | None => None
  end.

Fixpoint entries (lines : list string) : option (list (string * pyval)) :=
  match lines with
  | [] => Some []
  | l :: r =>
      match entry l, entries r with
      | Some (k, v), Some es =>
          if existsb (fun e => String.eqb e.1 k) es then None else Some ((k, v) :: es)
      | _, _ => None
      end
  end.

Definition flat_yaml (doc : string) : outcome pyval :=
  if String.eqb doc "" then Ret PNone
  else match scalar doc with
       | Some v => Ret v
       | None =>
           match entries (split nl doc) with
           | Some ((k, v) :: es) =>
               Ret (PDict (List.map (fun e => (PStr e.1, e.2)) ((k, v) :: es)))
           | _ => Raise YAMLError
           end
       end.

End Yaml.

(** ** marketplace.py *)

Module Marketplace.
Import Str Fs.

(** What [install_skill] and [remove_skill] act on: the file tree, and the
    commands handed to [subprocess.run] so far. *)
Record world := {
  files : node;
  spawned : list (list string)
}.

(** A function with effects: the outcome of the call and the world after it *)
Definition M (A : Type) : Type := world -> outcome A * world.

Definition ret {A} (a : A) : M A := fun w => (Ret a, w).

Definition bind {A B} (m : M A) (k : A -> M B) : M B :=
  fun w =>
    match m w with
    | (Ret a, w') => k a w'
    | (Raise e, w') => (Raise e, w')
    end.

(** [try: m  except Exception as e: h e] *)
Definition try_except {A} (m : M A) (h : exn -> M A) : M A :=
  fun w =>
    match m w with
    | (Ret a, w') => (Ret a, w')
    | (Raise e, w') => h e w'
    end.

Notation "x <- m ;; k" := (bind m (fun x => k))
  (at level 100, m at next level, right associativity).

(** a call on the file tree alone *)
Definition on_files {A} (f : node -> outcome A * node) : M A :=
  fun w =>
    let (r, fs) := f (files w) in
    (r, {| files := fs; spawned := spawned w |}).

(** [p.exists()], as the tree answers it.  The tree has no limit on the
    length of a name and follows no [..]: for a path outside
    [Limits.within_limits] the file system may raise [OSError] or answer
    for another directory. *)
Definition exists_path (p : path) : M bool :=
  on_files (fun fs => (Ret (path_exists fs p), fs)).

Definition mkdir (p : path) : M unit :=
  on_files (fun fs =>
    match mkdir_parents fs p with
    | Ret fs' => (Ret tt, fs')
    | Raise e => (Raise e, fs)
    end).

(** What a run of [git] comes to: the executable could not be started, or
    it exited with a return code, its error output, and the work tree it
    was to write. *)
Inductive run_result :=
| SpawnFailed (e : exn)
| Exited (returncode : Z) (stderr : string) (worktree : gmap string node).

Record CompletedProcess := {
  returncode : Z;
  stderr : string
}.

(** [skill_ref] resolved by [install_skill]: [(repo_url, skill_name)] *)
Definition resolve_ref (skill_ref : string) : option (string * string) :=
  if startswith "http" skill_ref
  then Some (skill_ref, last_piece (split slash (rstrip_char slash skill_ref)))
  else if contains slash skill_ref
  then match split_once slash skill_ref with
       | Some (owner, skill_name) =>
           Some ("https://github.com/" ++ owner ++ "/skills", skill_name)
       | None => None
       end
  else None.

(** the skill name [install_skill] works with, when it accepts the reference *)
Definition install_name (skill_ref : string) : option string :=
  match resolve_ref skill_ref with
  | Some (_, skill_name) => Some skill_name
  | None => None
  end.

(** the skill name [remove_skill] works with *)
Definition remove_name (skill_ref : string) : string :=
  if contains slash skill_ref
  then last_piece (split slash skill_ref)
  else skill_ref.

Section WithEnvironment.

(** the [git] executable: what a run with these arguments on this file
    tree comes to *)
Variable git : list string -> node -> run_result.

(** [str(e)] *)
Variable describe : exn -> string.

(** [subprocess.run(argv, capture_output=True)] for a [git] command whose
    work tree is [work_tree].  A run that exits with 0 leaves its work
    tree as a directory at [work_tree]; any other run leaves the file tree
    as it was. *)
Definition subprocess_run (argv : list string) (work_tree : path) : M CompletedProcess :=
  fun w =>
    let log := (spawned w ++ [argv])%list in
    match git argv (files w) with
    | SpawnFailed e => (Raise e, {| files := files w; spawned := log |})
    | Exited rc err tree =>
        (Ret {| returncode := rc; stderr := err |},
         {| files := if (rc =? 0)%Z then graft (files w) work_tree (Dir tree)
                     else files w;
            spawned := log |})
    end.

(** the body of the [try] of [install_skill] *)
Definition fetch (repo_url skill_name : string) (skills_dir target_dir : path) : M string :=
  let temp_dir := path_div skills_dir (".tmp_" ++ skill_name) in
  result <- subprocess_run
              ["git"; "clone"; "--depth"; "1"; "--filter=blob:none"; "--sparse";
               repo_url; str_path temp_dir] temp_dir ;;
  if negb (returncode result =? 0)%Z
  then ret ("Error cloning repository: " ++ stderr result)
  else
    _ <- subprocess_run
           ["git"; "-C"; str_path temp_dir; "sparse-checkout"; "set";
            "skills/" ++ skill_name] temp_dir ;;
    let skill_source := path_div (path_div temp_dir "skills") skill_name in
    found <- exists_path skill_source ;;
    if (found : bool)
    then
      _ <- on_files (fun fs => move fs skill_source target_dir) ;;
      _ <- on_files (fun fs => rmtree fs temp_dir) ;;
      ret ("Successfully installed skill '" ++ skill_name ++ "'.")
    else
      _ <- on_files (fun fs => rmtree fs temp_dir) ;;
      ret ("Error: Skill '" ++ skill_name ++ "' not found in repository.").

(** [install_skill(skill_ref, skills_dir)] *)
Definition install_skill (skill_ref : string) (skills_dir : path) : M string :=
  _ <- mkdir skills_dir ;;
  match resolve_ref skill_ref with
  | None =>
      ret ("Error: Invalid skill reference '" ++ skill_ref
           ++ "'. Use 'owner/skill-name' format.")
  | Some (repo_url, skill_name) =>
      let target_dir := path_div skills_dir skill_name in
      present <- exists_path target_dir ;;
      if (present : bool)
      then ret ("Skill '" ++ skill_name
                ++ "' is already installed. Remove it first to reinstall.")
      else try_except (fetch repo_url skill_name skills_dir target_dir)
                      (fun e => ret ("Error installing skill: " ++ describe e))
  end.

(** [remove_skill(skill_ref, skills_dir)] *)
Definition remove_skill (skill_ref : string) (skills_dir : path) : M string :=
  let skill_name := remove_name skill_ref in
  let target_dir := path_div skills_dir skill_name in
  present <- exists_path target_dir ;;
  if negb present
  then ret ("Skill '" ++ skill_name ++ "' is not installed.")
  else try_except
         (_ <- on_files (fun fs => rmtree fs target_dir) ;;
          ret ("Successfully removed skill '" ++ skill_name ++ "'."))
         (fun e => ret ("Error removing skill: " ++ describe e)).

End WithEnvironment.

End Marketplace.

(** ** The [json] codec

    [dumps] is [json.dumps] with its defaults; [loads] is [json.loads],
    [None] standing for [JSONDecodeError].  Escapes that denote a code
    point above 255 are outside the model and are refused by [loads]; the
    truth value of a decoded float is taken from its digits. *)

Module Json.
Import Str.

Definition backslash : ascii := ascii_of_nat 92.

Definition hex_char (n : nat) : ascii :=
  if (n <? 10)%nat then ascii_of_nat (48 + n) else ascii_of_nat (87 + n).

(** one character of a text, as [ensure_ascii] writes it *)
Definition escape (c : ascii) : string :=
  let n := nat_of_ascii c in
  if Ascii.eqb c dquote then String backslash (String dquote "")
  else if Ascii.eqb c backslash then String backslash (String backslash "")
  else if (n =? 10)%nat then "\n"
  else if (n =? 13)%nat then "\r"
  else if (n =? 9)%nat then "\t"
  else if (n =? 8)%nat then "\b"
  else if (n =? 12)%nat then "\f"
  else if (32 <=? n)%nat && (n <=? 126)%nat then String c ""
  else "\u00" ++ String (hex_char (n / 16)) (String (hex_char (n mod 16)) "").

Fixpoint escape_all (s : string) : string :=
  match s with
  | "" => ""
  | String c r => escape c ++ escape_all r
  end.

Definition encode_text (s : string) : string :=
  String dquote (escape_all s ++ String dquote "").

Definition decimal_of (z : Z) : string :=
  DecimalString.NilZero.string_of_int (Z.to_int z).

Fixpoint join (sep : string) (l : list string) : string :=
  match l with
  | [] => ""
  | [x] => x
  | x :: r => x ++ sep ++ join sep r
  end.

(** a key of a [dict]: text as it is, a number or constant by its name *)
Definition key_text (k : pyval) : string :=
  match k with
  | PStr s => s
  | PInt z => decimal_of z
  | PFloat _ lexeme => lexeme
  | PBool true => "true"
  | PBool false => "false"
  | _ => "null"
  end.

(** [json.dumps(v)] *)
Fixpoint dumps (v : pyval) : string :=
  match v with
  | PNone => "null"
  | PBool true => "true"
  | PBool false => "false"
  | PInt z => decimal_of z
  | PFloat _ lexeme => lexeme
  | PStr s => encode_text s
  | PList l => "[" ++ join ", " (List.map dumps l) ++ "]"
  | PDict d =>
      "{" ++ join ", " (List.map (fun kv : pyval * pyval =>
                                    let (k, x) := kv in
                                    encode_text (key_text k) ++ ": " ++ dumps x) d)
          ++ "}"
  end.

Definition is_blank (c : ascii) : bool :=
  let n := nat_of_ascii c in
  (n =? 32)%nat || (n =? 9)%nat || (n =? 10)%nat || (n =? 13)%nat.

Fixpoint skip_blank (s : string) : string :=
  match s with
  | "" => ""
  | String c r => if is_blank c then skip_blank r else s
  end.

Definition hex_value (c : ascii) : option nat :=
  let n := nat_of_ascii c in
  if (48 <=? n)%nat && (n <=? 57)%nat then Some (n - 48)
  else if (97 <=? n)%nat && (n <=? 102)%nat then Some (n - 87)
  else if (65 <=? n)%nat && (n <=? 70)%nat then Some (n - 55)
  else None.

(** the character a one-letter escape stands for *)
Definition unescape (c : ascii) : option ascii :=
  let n := nat_of_ascii c in
  if Ascii.eqb c dquote || Ascii.eqb c backslash || Ascii.eqb c slash then Some c
  else if Ascii.eqb c "b" then Some (ascii_of_nat 8)
  else if Ascii.eqb c "f" then Some (ascii_of_nat 12)
  else if Ascii.eqb c "n" then Some (ascii_of_nat 10)
  else if Ascii.eqb c "r" then Some (ascii_of_nat 13)
  else if Ascii.eqb c "t" then Some (ascii_of_nat 9)
  else None.

Definition push (c : ascii) (r : option (string * string)) : option (string * string) :=
  match r with
  | Some (t, rest) => Some (String c t, rest)
  | None => None
  end.

(** a text after its opening quote: the text and what follows the closing
    quote *)
Fixpoint scan_text (s : string) : option (string * string) :=
  match s with
  | "" => None
  | String c r =>
      if Ascii.eqb c dquote then Some ("", r)
      else if Ascii.eqb c backslash then
        match r with
        | String "u" (String h1 (String h2 (String h3 (String h4 r')))) =>
            match hex_value h1, hex_value h2, hex_value h3, hex_value h4 with
            | Some 0%nat, Some 0%nat, Some a, Some b =>
                push (ascii_of_nat (16 * a + b)) (scan_text r')
            | _, _, _, _ => None
            end
        | String e r' =>
            match unescape e with
            | Some x => push x (scan_text r')
            | None => None
            end
        | "" => None
        end
      else if (nat_of_ascii c <? 32)%nat then None
      else push c (scan_text r)
  end.

Definition is_digit (c : ascii) : bool :=
  let n := nat_of_ascii c in (48 <=? n)%nat && (n <=? 57)%nat.

(** the digits at the head of [s], and what follows them *)
Fixpoint take_digits (s : string) : string * string :=
  match s with
  | "" => ("", "")
  | String c r =>
      if is_digit c then let (d, rest) := take_digits r in (String c d, rest)
      else ("", s)
  end.

Definition digits_value (d : string) : Z :=
  Z.of_nat (fold_left (fun acc c => 10 * acc + (nat_of_ascii c - 48))%nat
                      (list_ascii_of_string d) 0%nat).

Fixpoint has_nonzero_digit (d : string) : bool :=
  match d with
  | "" => false
  | String c r => (is_digit c && negb (Ascii.eqb c "0")) || has_nonzero_digit r
  end.

(** A number at the head of [s]: an optional minus, then [0] or digits
    that do not start with [0], then an optional fraction and an optional
    exponent; a fraction or an exponent makes it a float. *)
Definition scan_number (s : string) : option (pyval * string) :=
  let (sign, s1) := match s with
                    | String "-" r => ("-", r)
                    | _ => ("", s)
                    end in
  let (whole, s2) := match s1 with
                     | String "0" r => ("0", r)
                     | _ => take_digits s1
                     end in
  if String.eqb whole "" then None
  else
    let (frac, s3) := match s2 with
                      | String "." r =>
                          let (d, r') := take_digits r in
                          if String.eqb d "" then ("", s2) else (String "." d, r')
                      | _ => ("", s2)
                      end in
    let (expo, s4) := match s3 with
                      | String e r =>
                          if Ascii.eqb e "e" || Ascii.eqb e "E"
                          then
                            let (sg, r1) := match r with
                                            | String "+" r1 => ("+", r1)
                                            | String "-" r1 => ("-", r1)
                                            | _ => ("", r)
                                            end in
                            let (d, r2) := take_digits r1 in
                            if String.eqb d "" then ("", s3)
                            else (String e (sg ++ d), r2)
                          else ("", s3)
                      | "" => ("", s3)
                      end in
    if String.eqb frac "" && String.eqb expo ""
    then Some (PInt (if String.eqb sign "" then digits_value whole
                     else - digits_value whole)%Z, s4)
    else Some (PFloat (has_nonzero_digit whole || has_nonzero_digit frac)
                      (sign ++ whole ++ frac ++ expo), s4).

(** the constants; [None] when [s] starts with none of them *)
Definition scan_constant (s : string) : option (pyval * string) :=
  match strip_prefix "null" s, strip_prefix "true" s, strip_prefix "false" s with
  | Some r, _, _ => Some (PNone, r)
  | _, Some r, _ => Some (PBool true, r)
  | _, _, Some r => Some (PBool false, r)
  | _, _, _ =>
      match scan_number s with
      | Some x => Some x
      | None =>
          match strip_prefix "NaN" s, strip_prefix "Infinity" s,
                strip_prefix "-Infinity" s with
          | Some r, _, _ => Some (PFloat true "NaN", r)
          | _, Some r, _ => Some (PFloat true "Infinity", r)
          | _, _, Some r => Some (PFloat true "-Infinity", r)
          | _, _, _ => None
          end
      end
  end.

(** [d[key] = v] on the items of a [dict] *)
Fixpoint dict_put (items : list (pyval * pyval)) (key : string) (v : pyval)
  : list (pyval * pyval) :=
  match items with
  | [] => [(PStr key, v)]
  | (PStr k, x) :: r =>
      if String.eqb k key then (PStr k, v) :: r else (PStr k, x) :: dict_put r key v
  | kx :: r => kx :: dict_put r key v
  end.

(** One value at the head of [s], and what follows it.  [fuel] bounds the
    number of values, members and items still to be read. *)
Fixpoint scan_value (fuel : nat) (s : string) : option (pyval * string) :=
  match fuel with
  | 0%nat => None
  | S fuel' =>
      match s with
      | "" => None
      | String c r =>
          if Ascii.eqb c dquote then
            match scan_text r with
            | Some (t, rest) => Some (PStr t, rest)
            | None => None
            end
          else if Ascii.eqb c "{" then
            match skip_blank r with
            | String "}" rest => Some (PDict [], rest)
            | r' =>
                match scan_members fuel' r' [] with
                | Some (d, rest) => Some (PDict d, rest)
                | None => None
                end
            end
          else if Ascii.eqb c "[" then
            match skip_blank r with
            | String "]" rest => Some (PList [], rest)
            | r' =>
                match scan_items fuel' r' with
                | Some (l, rest) => Some (PList l, rest)
                | None => None
                end
            end
          else scan_constant s
      end
  end
with scan_members (fuel : nat) (s : string) (acc : list (pyval * pyval))
  : option (list (pyval * pyval) * string) :=
  match fuel with
  | 0%nat => None
  | S fuel' =>
      match s with
      | String c r =>
          if Ascii.eqb c dquote then
            match scan_text r with
            | Some (key, r1) =>
                match skip_blank r1 with
                | String ":" r2 =>
                    match scan_value fuel' (skip_blank r2) with
                    | Some (v, r3) =>
                        match skip_blank r3 with
                        | String "}" rest => Some (dict_put acc key v, rest)
                        | String "," r4 =>
                            scan_members fuel' (skip_blank r4) (dict_put acc key v)
                        | _ => None
                        end
                    | None => None
                    end
                | _ => None
                end
            | None => None
            end
          else None
      | "" => None
      end
  end
with scan_items (fuel : nat) (s : string) : option (list pyval * string) :=
  match fuel with
  | 0%nat => None
  | S fuel' =>
      match scan_value fuel' s with
      | Some (v, r1) =>
          match skip_blank r1 with
          | String "]" rest => Some ([v], rest)
          | String "," r2 =>
              match scan_items fuel' (skip_blank r2) with
              | Some (l, rest) => Some (v :: l, rest)
              | None => None
              end
          | _ => None
          end
      | None => None
      end
  end.

(** [json.loads(s)]: one value, blanks around it, and nothing else *)
Definition loads (s : string) : option pyval :=
  match scan_value (2 * String.length s + 2) (skip_blank s) with
  | Some (v, rest) => if String.eqb (skip_blank rest) "" then Some v else None
  | None => None
  end.

End Json.

(** ** state.py *)

Module State.

(** [STATE_FILE]: the text of the state file, [None] while there is none *)
Definition state_file := option string.

(** [get_active_skill()] *)
Definition get_active_skill (st : state_file) : option pyval :=
  match st with
  | None => None
  | Some text => Json.loads text
  end.

(** an [Optional[str]] as a value *)
Definition optional_text (t : option string) : pyval :=
  match t with
  | Some s => PStr s
  | None => PNone
  end.

(** the record of an active skill *)
Definition record (name : string) (v : pyval) : pyval :=
  PDict [(PStr "name", PStr name); (PStr "allowed_tools", v)].

(** [set_active_skill(name, allowed_tools)] *)
Definition set_active_skill (name : string) (allowed_tools : option string)
  (st : state_file) : state_file :=
  let data := record name (optional_text allowed_tools) in
  Some (Json.dumps data).

(** [clear_active_skill()] *)
Definition clear_active_skill (st : state_file) : state_file :=
  match st with
  | Some _ => None
  | None => st
  end.

End State.

(** ** Descriptors and trees to run the code on *)

Module Examples.
Import Str Fs.

(** a descriptor with [name: my-skill], [description: "x"] and no body *)
Definition my_skill_md : string :=
  unlines ["---"; "name: my-skill"; "description: " ++ quoted "x"; "---"].

Definition letters (n : nat) : string := string_of_list_ascii (repeat "a"%char n).

(** a descriptor whose name has [n] letters *)
Definition long_name_md (n : nat) : string :=
  unlines ["---"; "name: " ++ letters n; "description: x"; "---"].

(** a descriptor whose frontmatter is a plain word, not a mapping *)
Definition word_md : string := unlines ["---"; "hello"; "---"].

(** a descriptor whose name is a number *)
Definition number_md : string :=
  unlines ["---"; "name: 123"; "description: x"; "---"].

(** a valid descriptor of the skill [n] *)
Definition skill_md (n : string) : string :=
  unlines ["---"; "name: " ++ n; "description: x"; "---"].

(** a descriptor without a name *)
Definition no_name_md : string := unlines ["---"; "description: x"; "---"].

Definition skill_dir (md : string) : node := Dir {[ "SKILL.md" := File md ]}.

(** a tree whose directory [skills] has three subdirectories: two with
    valid descriptors, and [broken] with the descriptor [md] *)
Definition three_skills (md : string) : node :=
  Dir {[ "skills" :=
           Dir (<[ "zeta" := skill_dir (skill_md "zeta") ]>
                (<[ "broken" := skill_dir md ]>
                 (<[ "alpha" := skill_dir (skill_md "alpha") ]> ∅))) ]}.

(** a machine without [git]: no run starts *)
Definition git_absent (argv : list string) (fs : node) : Marketplace.run_result :=
  Marketplace.SpawnFailed FileNotFoundError.

(** a [git] whose clone succeeds and leaves a work tree with a README,
    and whose [sparse-checkout] fails *)
Definition git_sparse_fails (argv : list string) (fs : node) : Marketplace.run_result :=
  match argv with
  | _ :: "clone" :: _ => Marketplace.Exited 0 "" {[ "README.md" := File "skills" ]}
  | _ => Marketplace.Exited 128 "fatal: this worktree is not sparse" ∅
  end.

(** a [git] whose clone fails *)
Definition git_clone_fails (argv : list string) (fs : node) : Marketplace.run_result :=
  Marketplace.Exited 128 "fatal: repository not found" ∅.

(** a [git] that fetches the skill [foo] *)
Definition git_fetches_foo (argv : list string) (fs : node) : Marketplace.run_result :=
  match argv with
  | _ :: "clone" :: _ => Marketplace.Exited 0 "" {[ "README.md" := File "skills" ]}
  | _ => Marketplace.Exited 0 ""
           {[ "README.md" := File "skills";
              "skills" := Dir {[ "foo" := skill_dir (skill_md "foo") ]} ]}
  end.

(** the text of an exception: the name of its class *)
Definition class_name (e : exn) : string :=
  match e with
  | YAMLError => "YAMLError"
  | AttributeError => "AttributeError"
  | TypeError => "TypeError"
  | FileExistsError => "FileExistsError"
  | FileNotFoundError => "FileNotFoundError"
  | NotADirectoryError => "NotADirectoryError"
  | IsADirectoryError => "IsADirectoryError"
  | ShutilError => "Error"
  | OSError => "OSError"
  end.

(** a world whose tree is [fs], before any command *)
Definition fresh (fs : node) : Marketplace.world :=
  {| Marketplace.files := fs; Marketplace.spawned := [] |}.

(** a tree where a regular file sits at [skills] *)
Definition skills_is_a_file : node := Dir {[ "skills" := File "notes" ]}.

(** a tree with the skill [foo] installed under [skills] *)
Definition foo_installed : node :=
  Dir {[ "skills" := Dir {[ "foo" := skill_dir (skill_md "foo") ]} ]}.

(** an empty tree *)
Definition empty_tree : node := Dir ∅.

End Examples.

(** ** Notions used in the statements *)

Module Notions.
Import Str Fs Parser Json Marketplace.

(** the order of [sorted]: by name *)
Definition name_le (a b : Skill) : Prop := String.leb (name a) (name b) = true.

(** the records of the entries that give one *)
Fixpoint kept (found : list (option Skill)) : list Skill :=
  match found with
  | [] => []
  | Some sk :: r => sk :: kept r
  | None :: r => kept r
  end.

(** a written value reads back, whatever follows it *)
Definition reads_back (v : pyval) : Prop :=
  forall fuel rest, scan_value (S fuel) (dumps v ++ rest) = Some (v, rest).

(** the text after the last [/] of [s]; all of [s] when it has none *)
Fixpoint trailing_segment (s : string) : string :=
  match s with
  | "" => ""
  | String c r =>
      if contains slash r then trailing_segment r
      else if Ascii.eqb c slash then r
      else s
  end.

(** how often [ch] occurs in [s] *)
Fixpoint occurrences (ch : ascii) (s : string) : nat :=
  match s with
  | "" => 0
  | String c r => (if Ascii.eqb c ch then 1 else 0) + occurrences ch r
  end.

(** [s.endswith(ch)] *)
Definition ends_with (ch : ascii) (s : string) : bool :=
  match last_char s with
  | Some c => Ascii.eqb c ch
  | None => false
  end.

(** a regular file sits at [p] or above it *)
Fixpoint obstructed (n : node) (p : path) : bool :=
  match n with
  | File _ => true
  | Dir kids =>
      match p with
      | [] => false
      | c :: p' =>
          match kids !! c with
          | Some k => obstructed k p'
          | None => false
          end
      end
  end.


End Notions.

(** ** Shapes of texts and of runs *)

Module Shapes.
Import Str Fs Parser Marketplace.

(** a non-empty run of [[a-z0-9]] *)
Definition word (s : string) : Prop :=
  s <> "" /\ all_chars is_lower_or_digit s = true.

(** [-second-third...]: each word after a dash *)
Fixpoint after_dashes (others : list string) : string :=
  match others with
  | [] => ""
  | w :: r => String dash (w ++ after_dashes r)
  end.

(** [first-second-...]: words joined by dashes *)
Definition dashed (first : string) (others : list string) : string :=
  first ++ after_dashes others.

(** a descriptor cut into its opening line, frontmatter, closing line and
    what follows *)
Definition descriptor (ws1 group1 ws2 rest : string) : string :=
  "---" ++ ws1 ++ String nl (group1 ++ String nl ("---" ++ ws2 ++ String nl rest)).

(** the skills with the name [n], in the order of the list *)
Definition named (n : string) (l : list Skill) : list Skill :=
  List.filter (fun sk => String.eqb (name sk) n) l.

(** the first argument of every command is [git] *)
Definition only_git (log : list (list string)) : Prop :=
  Forall (fun argv => head argv = Some "git") log.

(** neither path lies at or above the other *)
Definition apart (p q : path) : Prop :=
  is_prefix p q = false /\ is_prefix q p = false.

(** [m] hands at most [n] commands to [subprocess.run], all of them [git] *)
Definition logs {A} (n : nat) (m : M A) : Prop :=
  forall w, exists l, spawned (m w).2 = (spawned w ++ l)%list
                      /\ (length l <= n)%nat /\ only_git l.

(** a name of one path component: not empty, not [.], without [/] *)
Definition plain_name (s : string) : Prop :=
  contains slash s = false /\ s <> "" /\ s <> ".".

End Shapes.

(** ** Names and paths the file system takes as they are

    The tree of [Fs] answers for every list of components.  A file
    system does not: a call on a component of more than 255 bytes, or on
    a path of more than 4095 bytes, fails with [OSError], also where
    [exists()] is asked; a NUL cannot be passed on; and [..] names the
    directory above, which the tree does not follow.  Within the limits
    below the tree and the file system agree; a statement that rests on
    the answer of [exists()] for a path that may be absent is made for
    such paths. *)

Module Limits.
Import Str Fs.

(** the bytes of [s] in UTF-8: two for a code point from 128 on *)
Fixpoint utf8_length (s : string) : nat :=
  match s with
  | "" => 0
  | String c r => (if (nat_of_ascii c <? 128)%nat then 1 else 2) + utf8_length r
  end.

(** a component that names an entry of its directory: not empty, not [.]
    or [..], without [/] and NUL, of at most 255 bytes *)
Definition ordinary_name (c : string) : bool :=
  negb (String.eqb c "") && negb (String.eqb c ".") && negb (String.eqb c "..")
  && negb (contains slash c) && negb (contains Ascii.zero c)
  && (utf8_length c <=? 255)%nat.

(** the bytes of [str(p)] *)
Fixpoint path_bytes (p : path) : nat :=
  match p with
  | [] => 0
  | c :: p' => S (utf8_length c) + path_bytes p'
  end.

(** every component is ordinary and the whole path fits *)
Definition within_limits (p : path) : bool :=
  forallb ordinary_name p && (path_bytes p <=? 4095)%nat.

End Limits.

(** * Properties *)

(** ** Text *)

Import Str.

Lemma append_cons c s t : String c s ++ t = String c (s ++ t).
Proof. reflexivity. Qed.

Lemma append_nil t : "" ++ t = t.
Proof. reflexivity. Qed.

Ltac push_append := rewrite ?append_cons, ?append_nil.

Lemma strip_prefix_app p s r : strip_prefix p s = Some r -> s = p ++ r.
Proof.
  revert s; induction p as [|a p IH]; intros s H.
  - simpl in H. now inversion H.
  - destruct s as [|b s]; simpl in H; [discriminate|].
    destruct (Ascii.eqb a b) eqn:E; [|discriminate].
    apply Ascii.eqb_eq in E; subst b.
    push_append. f_equal. now apply IH.
Qed.

Lemma all_space_cons c s : is_space c = true -> all_space s -> all_space (String c s).
Proof. unfold all_space; simpl; intros -> ->; reflexivity. Qed.

Lemma all_space_nil : all_space "".
Proof. reflexivity. Qed.

Lemma lstrip_split s :
  exists lead, s = lead ++ lstrip s /\ all_space lead.
Proof.
  induction s as [|c s [lead [E L]]].
  - exists "". split; [reflexivity | apply all_space_nil].
  - simpl. destruct (is_space c) eqn:Hc.
    + exists (String c lead). split; [push_append; now f_equal | now apply all_space_cons].
    + exists "". split; [reflexivity | apply all_space_nil].
Qed.

Lemma lstrip_starts_clean s : starts_clean (lstrip s).
Proof.
  induction s as [|c s IH]; simpl; [exact I|].
  destruct (is_space c) eqn:Hc; [exact IH | exact Hc].
Qed.

Lemma rstrip_split s :
  exists trail, s = rstrip s ++ trail /\ all_space trail.
Proof.
  induction s as [|c s [trail [E T]]].
  - exists "". split; [reflexivity | apply all_space_nil].
  - simpl. destruct (rstrip s) as [|d r'] eqn:R.
    + destruct (is_space c) eqn:Hc.
      * exists (String c trail). rewrite append_nil in E. subst s.
        split; [reflexivity | now apply all_space_cons].
      * exists trail. rewrite append_nil in E. subst s. split; [reflexivity | exact T].
    + exists trail. split; [push_append; f_equal; exact E | exact T].
Qed.

Lemma rstrip_ends_clean s : ends_clean (rstrip s).
Proof.
  unfold ends_clean.
  induction s as [|c s IH]; simpl; [exact I|].
  destruct (rstrip s) as [|d r'] eqn:R.
  - destruct (is_space c) eqn:Hc; simpl; [exact I | exact Hc].
  - exact IH.
Qed.

Lemma rstrip_starts_clean s : starts_clean s -> starts_clean (rstrip s).
Proof.
  destruct s as [|c s]; simpl; [trivial|]. intros Hc.
  destruct (rstrip s); [rewrite Hc|]; exact Hc.
Qed.

(** [strip] cuts whitespace at both ends, and nothing else *)
Lemma strip_spec s :
  exists lead trail,
    s = lead ++ strip s ++ trail /\ all_space lead /\ all_space trail
    /\ starts_clean (strip s) /\ ends_clean (strip s).
Proof.
  destruct (lstrip_split s) as [lead [E L]].
  destruct (rstrip_split (lstrip s)) as [trail [E' T]].
  exists lead, trail. unfold strip. repeat split; trivial.
  - rewrite <- E'. exact E.
  - apply rstrip_starts_clean, lstrip_starts_clean.
  - apply rstrip_ends_clean.
Qed.

(** ** The descriptor parser *)

Import Fs Parser.

Lemma after_blank_newline_In s r :
  In r (after_blank_newline s) ->
  exists ws, all_space ws /\ s = ws ++ String nl r.
Proof.
  induction s as [|c s IH]; simpl; [tauto|].
  destruct (is_space c) eqn:Hc; [|simpl; tauto].
  intros H. apply in_app_or in H. destruct H as [H|H].
  - destruct (IH H) as [ws [W E]].
    exists (String c ws). split; [now apply all_space_cons|].
    push_append. now f_equal.
  - destruct (Ascii.eqb c nl) eqn:Hn; simpl in H; [|tauto].
    destruct H as [H|[]]. subst r. apply Ascii.eqb_eq in Hn. subst c.
    exists "". split; [apply all_space_nil | reflexivity].
Qed.

Lemma closing_delimiter_sound s rest :
  closing_delimiter s = Some rest ->
  exists ws, all_space ws /\ s = closing ++ ws ++ String nl rest.
Proof.
  unfold closing_delimiter. intros H.
  destruct (strip_prefix closing s) as [r|] eqn:P; [|discriminate].
  apply strip_prefix_app in P.
  destruct (after_blank_newline r) as [|x l] eqn:A; [discriminate|].
  simpl in H. inversion H; subst x.
  destruct (after_blank_newline_In r rest) as [ws [W E]].
  { rewrite A. now left. }
  exists ws. split; [exact W|]. now rewrite P, E.
Qed.

Lemma lazy_group_eq s :
  lazy_group s =
  match closing_delimiter s with
  | Some rest => Some ("", rest)
  | None =>
      match s with
      | "" => None
      | String c r =>
          match lazy_group r with
          | Some (g, rest) => Some (String c g, rest)
          | None => None
          end
      end
  end.
Proof. destruct s; reflexivity. Qed.

Lemma lazy_group_sound s g rest :
  lazy_group s = Some (g, rest) ->
  exists ws, all_space ws /\ s = g ++ closing ++ ws ++ String nl rest.
Proof.
  revert g; induction s as [|c s IH]; intros g; rewrite lazy_group_eq.
  - destruct (closing_delimiter "") eqn:C; [|discriminate].
    intros H; inversion H; subst. now apply closing_delimiter_sound.
  - destruct (closing_delimiter (String c s)) eqn:C.
    + intros H; inversion H; subst. now apply closing_delimiter_sound.
    + destruct (lazy_group s) as [[g' rest']|]; [|discriminate].
      intros H; inversion H; subst.
      destruct (IH g' eq_refl) as [ws [W E]].
      exists ws. split; [exact W|]. push_append. now f_equal.
Qed.

Lemma first_success_In {A B} (f : A -> option B) l y :
  first_success f l = Some y -> exists x, In x l /\ f x = Some y.
Proof.
  induction l as [|x l IH]; simpl; [discriminate|].
  destruct (f x) eqn:F.
  - intros H; inversion H; subst. exists x. split; [now left | exact F].
  - intros H. destruct (IH H) as [x' [I E]]. exists x'. split; [now right | exact E].
Qed.

(** A match of the frontmatter pattern cuts the content into the opening
    line, group 1, the closing line and the rest. *)
Lemma frontmatter_match_sound content g rest :
  frontmatter_match content = Some (g, rest) ->
  exists ws1 ws2,
    all_space ws1 /\ all_space ws2 /\
    content = "---" ++ ws1 ++ String nl (g ++ String nl ("---" ++ ws2 ++ String nl rest)).
Proof.
  unfold frontmatter_match. intros H.
  destruct (strip_prefix "---" content) as [r|] eqn:P; [|discriminate].
  apply strip_prefix_app in P.
  destruct (first_success_In _ _ _ H) as [x [I L]].
  destruct (after_blank_newline_In _ _ I) as [ws1 [W1 E1]].
  destruct (lazy_group_sound _ _ _ L) as [ws2 [W2 E2]].
  exists ws1, ws2. repeat split; trivial.
  rewrite P, E1, E2. reflexivity.
Qed.

Section ParserFacts.

Variable safe_load : string -> outcome pyval.

(** What a returned record tells about the descriptor *)
Lemma parse_content_Some content sk :
  parse_content safe_load content = Ret (Some sk) ->
  exists group1 rest items,
    frontmatter_match content = Some (group1, rest)
    /\ safe_load group1 = Ret (PDict items)
    /\ dict_get "name" items = Some (PStr (name sk))
    /\ name sk <> ""
    /\ name_pattern (name sk) = true
    /\ (String.length (name sk) <= 64)%nat
    /\ dict_get "description" items = Some (description sk)
    /\ truthy (description sk) = true
    /\ (exists n, py_len (description sk) = Ret n /\ (n <= 1024)%nat)
    /\ body sk = strip rest
    /\ allowed_tools sk = default PNone (dict_get "allowed-tools" items)
    /\ license sk = default PNone (dict_get "license" items)
    /\ compatibility sk = default PNone (dict_get "compatibility" items)
    /\ metadata sk = default PNone (dict_get "metadata" items).
Proof.
  unfold parse_content. intros H.
  destruct (frontmatter_match content) as [[group1 rest]|]; [|discriminate].
  destruct (safe_load group1) as [v|e] eqn:L; [|destruct e; discriminate].
  destruct v as [| | | | |l|items]; try discriminate.
  exists group1, rest, items.
  simpl in H.
  destruct (dict_get "name" items) as [nv|] eqn:N; simpl in H; [|discriminate].
  destruct (truthy nv) eqn:Tn; simpl in H; [|discriminate].
  destruct (dict_get "description" items) as [dv|] eqn:D; simpl in H; [|discriminate].
  destruct (truthy dv) eqn:Td; simpl in H; [|discriminate].
  destruct nv as [| | | |s| |]; try discriminate. simpl in H.
  destruct (name_pattern s) eqn:Pn; simpl in H; [|discriminate].
  destruct (64 <? String.length s)%nat eqn:Ln; simpl in H; [discriminate|].
  destruct (py_len dv) as [n|] eqn:Ld; simpl in H; [|discriminate].
  destruct (1024 <? n)%nat eqn:L1; simpl in H; [discriminate|].
  inversion H; subst sk; simpl.
  apply Nat.ltb_ge in Ln, L1.
  repeat split; trivial.
  - intros ->. discriminate.
  - now exists n.
Qed.

(** A descriptor that meets every requirement gives its record *)
Lemma parse_content_valid content group1 rest items n d :
  frontmatter_match content = Some (group1, rest) ->
  safe_load group1 = Ret (PDict items) ->
  dict_get "name" items = Some (PStr n) ->
  dict_get "description" items = Some (PStr d) ->
  name_pattern n = true ->
  (String.length n <= 64)%nat ->
  d <> "" ->
  (String.length d <= 1024)%nat ->
  parse_content safe_load content =
  Ret (Some {| name := n;
               description := PStr d;
               body := strip rest;
               allowed_tools := default PNone (dict_get "allowed-tools" items);
               license := default PNone (dict_get "license" items);
               compatibility := default PNone (dict_get "compatibility" items);
               metadata := default PNone (dict_get "metadata" items) |}).
Proof.
  intros M L N D P Ln Hd Ld.
  unfold parse_content. rewrite M, L. simpl. rewrite N, D. simpl.
  assert (Hn : String.eqb n "" = false).
  { destruct n; [discriminate P | reflexivity]. }
  assert (Hd' : String.eqb d "" = false).
  { destruct d; [congruence | reflexivity]. }
  rewrite Hn, Hd'. simpl. rewrite P. simpl.
  apply Nat.ltb_ge in Ln, Ld. rewrite Ln. simpl. rewrite Ld. reflexivity.
Qed.

End ParserFacts.

Import Yaml Examples.

Lemma strip_all_space s : all_space s -> strip s = "".
Proof.
  unfold strip. intros H.
  assert (E : lstrip s = "").
  { induction s as [|c s IH]; [reflexivity|].
    unfold all_space in H. simpl in H. apply andb_prop in H as [Hc Hs].
    simpl. rewrite Hc. now apply IH. }
  now rewrite E.
Qed.

(** C2, at a failing input: a descriptor whose frontmatter is the plain
    word [hello] makes the parser raise [AttributeError] instead of
    returning no record, and one whose name is the number 123 makes it
    raise [TypeError]. *)
Theorem parse_raises_on_unexpected_frontmatter :
  parse_content flat_yaml word_md = Raise AttributeError
  /\ parse_content flat_yaml number_md = Raise TypeError.
Proof. split; vm_compute; reflexivity. Qed.

(** Whatever the loader, frontmatter that loads as anything but a mapping
    makes the parser raise. *)
Lemma parse_content_not_a_mapping safe_load content group1 rest v :
  frontmatter_match content = Some (group1, rest) ->
  safe_load group1 = Ret v ->
  (forall items, v <> PDict items) ->
  parse_content safe_load content = Raise AttributeError.
Proof.
  intros M L N. unfold parse_content. rewrite M, L.
  destruct v; try reflexivity. now destruct (N items).
Qed.

(** C4: a record is returned only if the frontmatter has a non-empty
    [name] and [description], the name matches the pattern and has at most
    64 characters, and the description has length at most 1024; a name of
    65 characters gives no record, a 64-character name of a descriptor
    that is valid otherwise gives one, and a descriptor with any one of
    the violations gives none. *)
Theorem required_fields_and_limits (safe_load : string -> outcome pyval) :
  (forall content sk,
      parse_content safe_load content = Ret (Some sk) ->
      exists group1 rest items,
        frontmatter_match content = Some (group1, rest)
        /\ safe_load group1 = Ret (PDict items)
        /\ dict_get "name" items = Some (PStr (name sk))
        /\ name sk <> ""
        /\ name_pattern (name sk) = true
        /\ (String.length (name sk) <= 64)%nat
        /\ dict_get "description" items = Some (description sk)
        /\ truthy (description sk) = true
        /\ exists n, py_len (description sk) = Ret n /\ (n <= 1024)%nat)
  /\ (forall content group1 rest items n,
         frontmatter_match content = Some (group1, rest) ->
         safe_load group1 = Ret (PDict items) ->
         dict_get "name" items = Some (PStr n) ->
         String.length n = 65%nat ->
         forall sk, parse_content safe_load content <> Ret (Some sk))
  /\ (forall content group1 rest items n d,
         frontmatter_match content = Some (group1, rest) ->
         safe_load group1 = Ret (PDict items) ->
         dict_get "name" items = Some (PStr n) ->
         dict_get "description" items = Some (PStr d) ->
         name_pattern n = true ->
         String.length n = 64%nat ->
         d <> "" ->
         (String.length d <= 1024)%nat ->
         exists sk,
           parse_content safe_load content = Ret (Some sk)
           /\ name sk = n /\ description sk = PStr d)
  /\ (forall content group1 rest items,
         frontmatter_match content = Some (group1, rest) ->
         safe_load group1 = Ret (PDict items) ->
         dict_get "name" items = None
         \/ dict_get "description" items = None
         \/ (exists n, dict_get "name" items = Some (PStr n)
                       /\ (n = "" \/ name_pattern n = false
                           \/ (64 < String.length n)%nat))
         \/ (exists d, dict_get "description" items = Some (PStr d)
                       /\ (d = "" \/ (1024 < String.length d)%nat)) ->
         forall sk, parse_content safe_load content <> Ret (Some sk)).
Proof.
  split; [|split; [|split]]; cycle 3.
  { intros content g rest items M L V sk H.
    destruct (parse_content_Some safe_load content sk H)
      as (g' & rest' & items' & M' & L' & N & Ne & P & Ln & D & T & (n' & Ld & Ld') & _).
    rewrite M in M'. inversion M'; subst g' rest'.
    rewrite L in L'. inversion L'; subst items'.
    destruct V as [V|[V|[(n & V & W)|(d & V & W)]]].
    - congruence.
    - congruence.
    - rewrite N in V. inversion V; subst n.
      destruct W as [W|[W|W]]; [congruence | congruence | lia].
    - rewrite D in V. inversion V as [E]. rewrite E in T, Ld. destruct W as [W|W].
      + subst d. discriminate T.
      + simpl in Ld. inversion Ld. lia. }
  - intros content sk H.
    destruct (parse_content_Some safe_load content sk H)
      as (g & rest & items & M & L & N & Ne & P & Ln & D & T & Ld & _).
    exists g, rest, items. repeat split; trivial.
  - intros content g rest items n M L N Len sk H.
    destruct (parse_content_Some safe_load content sk H)
      as (g' & rest' & items' & M' & L' & N' & _ & _ & Ln & _).
    rewrite M in M'. inversion M'; subst g' rest'.
    rewrite L in L'. inversion L'; subst items'.
    rewrite N in N'. inversion N'; subst n. lia.
  - intros content g rest items n d M L N D P Len Hd Ld.
    eexists. split.
    + apply (parse_content_valid safe_load content g rest items n d); trivial. lia.
    + split; reflexivity.
Qed.

Lemma required_fields_and_limits_witness :
  (exists sk, parse_content flat_yaml (long_name_md 64) = Ret (Some sk)
              /\ name sk = letters 64 /\ description sk = PStr "x")
  /\ (forall sk, parse_content flat_yaml (long_name_md 65) <> Ret (Some sk)).
Proof.
  split.
  - apply (proj1 (proj2 (proj2 (required_fields_and_limits flat_yaml)))
             (long_name_md 64) ("name: " ++ letters 64 ++ String nl "description: x") ""
             [(PStr "name", PStr (letters 64)); (PStr "description", PStr "x")]);
      try (vm_compute; reflexivity).
    + discriminate.
    + vm_compute. lia.
  - apply (proj1 (proj2 (required_fields_and_limits flat_yaml))
             (long_name_md 65) ("name: " ++ letters 65 ++ String nl "description: x") ""
             [(PStr "name", PStr (letters 65)); (PStr "description", PStr "x")]
             (letters 65));
      vm_compute; reflexivity.
Defined.

(** C9: the body of a returned record is what follows the closing line of
    the frontmatter, with the whitespace at its two ends cut; a descriptor
    with valid frontmatter and nothing after it gives a record with that
    name, that description and an empty body. *)
Theorem body_is_trimmed_rest (safe_load : string -> outcome pyval) :
  (forall content sk,
      parse_content safe_load content = Ret (Some sk) ->
      exists ws1 group1 ws2 rest lead trail,
        content = "---" ++ ws1 ++ String nl
                    (group1 ++ String nl ("---" ++ ws2 ++ String nl rest))
        /\ all_space ws1 /\ all_space ws2
        /\ frontmatter_match content = Some (group1, rest)
        /\ body sk = strip rest
        /\ rest = lead ++ body sk ++ trail
        /\ all_space lead /\ all_space trail
        /\ starts_clean (body sk) /\ ends_clean (body sk))
  /\ (forall content group1 items n d,
         frontmatter_match content = Some (group1, "") ->
         safe_load group1 = Ret (PDict items) ->
         dict_get "name" items = Some (PStr n) ->
         dict_get "description" items = Some (PStr d) ->
         name_pattern n = true ->
         (String.length n <= 64)%nat ->
         d <> "" ->
         (String.length d <= 1024)%nat ->
         exists sk,
           parse_content safe_load content = Ret (Some sk)
           /\ name sk = n /\ description sk = PStr d /\ body sk = "").
Proof.
  split.
  - intros content sk H.
    destruct (parse_content_Some safe_load content sk H)
      as (g & rest & items & M & _ & _ & _ & _ & _ & _ & _ & _ & B & _).
    destruct (frontmatter_match_sound content g rest M) as (ws1 & ws2 & W1 & W2 & E).
    destruct (strip_spec rest) as (lead & trail & Er & Wl & Wt & Sc & Ec).
    exists ws1, g, ws2, rest, lead, trail.
    rewrite B. repeat split; trivial.
  - intros content g items n d M L N D P Ln Hd Ld.
    eexists. split.
    + apply (parse_content_valid safe_load content g "" items n d); trivial.
    + repeat split; reflexivity.
Qed.

Lemma body_is_trimmed_rest_witness :
  exists sk,
    parse_content flat_yaml my_skill_md = Ret (Some sk)
    /\ name sk = "my-skill" /\ description sk = PStr "x" /\ body sk = "".
Proof.
  apply (proj2 (body_is_trimmed_rest flat_yaml)
           my_skill_md ("name: my-skill" ++ String nl ("description: " ++ quoted "x"))
           [(PStr "name", PStr "my-skill"); (PStr "description", PStr "x")]);
    try (vm_compute; reflexivity).
  - vm_compute. lia.
  - discriminate.
  - vm_compute. lia.
Defined.

(** ** Listing the skills *)

Import Notions.

Lemma insert_by_name_perm x l : Permutation (insert_by_name x l) (x :: l).
Proof.
  induction l as [|y l IH]; simpl; [reflexivity|].
  destruct (String.leb (name x) (name y)); [reflexivity|].
  rewrite IH. apply perm_swap.
Qed.

Lemma sorted_by_name_perm l : Permutation (sorted_by_name l) l.
Proof.
  induction l as [|x l IH]; simpl; [reflexivity|].
  unfold sorted_by_name in *. simpl.
  rewrite insert_by_name_perm. now constructor.
Qed.

Lemma insert_by_name_hd x y l :
  name_le y x -> HdRel name_le y l -> HdRel name_le y (insert_by_name x l).
Proof.
  intros Hyx H. destruct l as [|z l]; simpl; [now constructor|].
  destruct (String.leb (name x) (name z)); constructor; trivial.
  now inversion H.
Qed.

Lemma insert_by_name_sorted x l :
  Sorted name_le l -> Sorted name_le (insert_by_name x l).
Proof.
  induction 1 as [|y l S IH H]; simpl; [repeat constructor|].
  destruct (String.leb (name x) (name y)) eqn:E.
  - constructor; [now constructor | now constructor].
  - constructor; [exact IH|].
    apply insert_by_name_hd; [|exact H].
    unfold name_le. destruct (String.leb_total (name x) (name y)); congruence.
Qed.

Lemma sorted_by_name_sorted l : Sorted name_le (sorted_by_name l).
Proof.
  induction l as [|x l IH]; [constructor|].
  unfold sorted_by_name in *. simpl. now apply insert_by_name_sorted.
Qed.

(** When no descriptor makes the parser raise, [list_skills] returns the
    records of the entries in the order of their names. *)
Lemma list_skills_returns safe_load fs skills_dir l :
  list_skills safe_load fs skills_dir = Ret l ->
  Sorted name_le l
  /\ ((lookup fs skills_dir = None /\ l = [])
      \/ exists kids skills,
           lookup fs skills_dir = Some (Dir kids)
           /\ visit_all safe_load fs skills_dir (map_to_list kids) = Ret skills
           /\ Permutation l skills).
Proof.
  unfold list_skills.
  destruct (lookup fs skills_dir) as [[text|kids]|] eqn:L; try discriminate.
  - destruct (visit_all safe_load fs skills_dir (map_to_list kids)) as [skills|] eqn:V;
      simpl; [|discriminate].
    intros H; inversion H; subst l. split; [apply sorted_by_name_sorted|].
    right. exists kids, skills. repeat split; trivial. apply sorted_by_name_perm.
  - intros H; inversion H; subst l. split; [constructor | now left].
Qed.

Lemma visit_all_returns safe_load fs skills_dir entries found :
  List.map (visit safe_load fs skills_dir) entries = List.map Ret found ->
  visit_all safe_load fs skills_dir entries = Ret (kept found).
Proof.
  revert found; induction entries as [|e entries IH]; intros [|f found] H;
    try discriminate; [reflexivity|].
  simpl in H. inversion H as [[Hv Hr]].
  simpl. rewrite Hv. simpl. rewrite (IH found Hr). simpl. now destruct f.
Qed.

(** C6, at a failing input: of three subdirectories, two hold valid
    descriptors and the third a descriptor whose frontmatter is a plain
    word; [list_skills] raises instead of discarding the third.  When the
    third descriptor fails by lacking a name, the two records come back in
    the order of their names, and a directory that does not exist gives
    the empty list. *)
Theorem list_skills_raises_on_unexpected_frontmatter :
  list_skills flat_yaml (three_skills word_md) ["skills"] = Raise AttributeError
  /\ (exists l, list_skills flat_yaml (three_skills no_name_md) ["skills"] = Ret l
                 /\ List.map name l = ["alpha"; "zeta"])
  /\ list_skills flat_yaml (three_skills word_md) ["nowhere"] = Ret [].
Proof.
  split; [vm_compute; reflexivity|].
  split; [|vm_compute; reflexivity].
  eexists. split; vm_compute; reflexivity.
Qed.

(** ** The active-skill store *)

Import Json State.

Lemma append_assoc s t u : (s ++ t) ++ u = s ++ (t ++ u).
Proof.
  induction s as [|c s IH]; [reflexivity|].
  push_append. now f_equal.
Qed.

(** reading back one written character *)
Lemma scan_text_escape c rest :
  scan_text (escape c ++ rest) = push c (scan_text rest).
Proof.
  destruct c as [[] [] [] [] [] [] [] []]; reflexivity.
Qed.

(** reading back a written text *)
Lemma scan_text_escape_all s rest :
  scan_text (escape_all s ++ String dquote rest) = Some (s, rest).
Proof.
  induction s as [|c s IH].
  - reflexivity.
  - change (escape_all (String c s)) with (escape c ++ escape_all s).
    rewrite append_assoc, scan_text_escape, IH. reflexivity.
Qed.

Lemma scan_value_text fuel s rest :
  scan_value (S fuel) (encode_text s ++ rest) = Some (PStr s, rest).
Proof.
  unfold encode_text. push_append. rewrite append_assoc. push_append.
  change (scan_value (S fuel) (String dquote ?r))
    with (match scan_text r with Some (t, rest) => Some (PStr t, rest) | None => None end).
  rewrite scan_text_escape_all. reflexivity.
Qed.

Lemma scan_value_null fuel rest :
  scan_value (S fuel) ("null" ++ rest) = Some (PNone, rest).
Proof. reflexivity. Qed.


Lemma scan_members_quote fuel r acc :
  scan_members (S fuel) (String dquote r) acc =
  match scan_text r with
  | Some (key, r1) =>
      match skip_blank r1 with
      | String ":" r2 =>
          match scan_value fuel (skip_blank r2) with
          | Some (v, r3) =>
              match skip_blank r3 with
              | String "}" rest => Some (dict_put acc key v, rest)
              | String "," r4 =>
                  scan_members fuel (skip_blank r4) (dict_put acc key v)
              | _ => None
              end
          | None => None
          end
      | _ => None
      end
  | None => None
  end.
Proof. reflexivity. Qed.

Lemma scan_value_brace fuel r :
  scan_value (S fuel) (String "{" (String dquote r)) =
  match scan_members fuel (String dquote r) [] with
  | Some (d, rest) => Some (PDict d, rest)
  | None => None
  end.
Proof. reflexivity. Qed.

Lemma skip_blank_quote r : skip_blank (String dquote r) = String dquote r.
Proof. reflexivity. Qed.

Lemma skip_blank_encoded s r : skip_blank (encode_text s ++ r) = encode_text s ++ r.
Proof. reflexivity. Qed.

Lemma scan_members_key fuel key r acc :
  scan_members (S fuel) (encode_text key ++ r) acc =
  match skip_blank r with
  | String ":" r2 =>
      match scan_value fuel (skip_blank r2) with
      | Some (v, r3) =>
          match skip_blank r3 with
          | String "}" rest => Some (dict_put acc key v, rest)
          | String "," r4 =>
              scan_members fuel (skip_blank r4) (dict_put acc key v)
          | _ => None
          end
      | None => None
      end
  | _ => None
  end.
Proof.
  unfold encode_text. push_append. rewrite append_assoc. push_append.
  rewrite scan_members_quote, scan_text_escape_all. reflexivity.
Qed.

Lemma scan_value_members fuel key r :
  scan_value (S fuel) (String "{" (encode_text key ++ r)) =
  match scan_members fuel (encode_text key ++ r) [] with
  | Some (d, rest) => Some (PDict d, rest)
  | None => None
  end.
Proof. reflexivity. Qed.

Lemma scan_record fuel name v rest :
  reads_back v ->
  (forall r, skip_blank (dumps v ++ r) = dumps v ++ r) ->
  scan_value (S (S (S (S fuel)))) (dumps (record name v) ++ rest)
  = Some (record name v, rest).
Proof.
  intros Hv Hb.
  change (dumps (record name v))
    with ("{" ++ ((encode_text "name" ++ ": " ++ encode_text name) ++ ", "
                  ++ (encode_text "allowed_tools" ++ ": " ++ dumps v)) ++ "}").
  rewrite !append_assoc. push_append.
  rewrite scan_value_members, scan_members_key.
  change (skip_blank (String ":" (String " " ?x))) with (String ":" (String " " x)).
  cbv iota.
  change (skip_blank (String " " ?x)) with (skip_blank x).
  rewrite skip_blank_encoded, scan_value_text.
  change (skip_blank (String "," (String " " ?x))) with (String "," (String " " x)).
  cbv iota.
  change (skip_blank (String " " ?x)) with (skip_blank x).
  rewrite skip_blank_encoded, scan_members_key.
  change (skip_blank (String ":" (String " " ?x))) with (String ":" (String " " x)).
  cbv iota.
  change (skip_blank (String " " ?x)) with (skip_blank x).
  rewrite Hb, Hv.
  reflexivity.
Qed.

Lemma reads_back_text t : reads_back (PStr t).
Proof. intros fuel rest. apply scan_value_text. Qed.

Lemma reads_back_null : reads_back PNone.
Proof. intros fuel rest. reflexivity. Qed.

Lemma loads_record name v :
  reads_back v ->
  (forall r, skip_blank (dumps v ++ r) = dumps v ++ r) ->
  loads (dumps (record name v)) = Some (record name v).
Proof.
  intros Hv Hb. unfold loads.
  assert (E : dumps (record name v) = dumps (record name v) ++ "").
  { generalize (dumps (record name v)). intros s. induction s; [reflexivity|].
    push_append. now f_equal. }
  assert (L : (1 <= String.length (dumps (record name v)))%nat).
  { change (dumps (record name v)) with (String "{" (join ", " (List.map (fun kv : pyval * pyval =>
                                    let (k, x) := kv in
                                    encode_text (key_text k) ++ ": " ++ dumps x) [(PStr "name", PStr name); (PStr "allowed_tools", v)])
          ++ "}")).
    simpl String.length. lia. }
  destruct (2 * String.length (dumps (record name v)) + 2)%nat
    as [|[|[|[|fuel]]]] eqn:F; try lia.
  change (skip_blank (dumps (record name v))) with (dumps (record name v)).
  rewrite E at 1. rewrite scan_record by trivial. reflexivity.
Qed.

(** C5: after [set_active_skill name allowed_tools], whatever the state
    file held, [get_active_skill] returns the record with exactly the
    fields [name] and [allowed_tools]; after [clear_active_skill] it
    returns no value. *)
Theorem set_get_and_clear_get (prior : state_file) (name : string)
  (allowed_tools : option string) :
  get_active_skill (set_active_skill name allowed_tools prior)
  = Some (PDict [(PStr "name", PStr name);
                 (PStr "allowed_tools", optional_text allowed_tools)])
  /\ get_active_skill (clear_active_skill prior) = None.
Proof.
  split.
  - unfold get_active_skill, set_active_skill.
    apply (loads_record name (optional_text allowed_tools)).
    + destruct allowed_tools; [apply reads_back_text | apply reads_back_null].
    + destruct allowed_tools; reflexivity.
  - now destruct prior.
Qed.

(** The example of the specification *)
Example set_get_foo :
  get_active_skill (set_active_skill "foo" (Some "Read,Write") None)
  = Some (PDict [(PStr "name", PStr "foo"); (PStr "allowed_tools", PStr "Read,Write")]).
Proof. vm_compute. reflexivity. Qed.

(** ** The file tree *)

Import Marketplace.

Lemma lookup_app n p q :
  lookup n (p ++ q)%list = match lookup n p with Some k => lookup k q | None => None end.
Proof.
  revert n; induction p as [|c p IH]; intros n; [reflexivity|].
  simpl. destruct (kids_of n !! c); [apply IH | reflexivity].
Qed.

Lemma lookup_file_cons text c p : lookup (File text) (c :: p) = None.
Proof. reflexivity. Qed.

Lemma is_dir_prefix n p q :
  is_dir n (p ++ q)%list = true -> is_dir n p = true.
Proof.
  unfold is_dir. rewrite lookup_app.
  destruct (lookup n p) as [[text|kids]|]; try reflexivity; try discriminate.
  destruct q; [trivial | discriminate].
Qed.

Lemma is_prefix_app p q : is_prefix p q = true -> exists r, q = (p ++ r)%list.
Proof.
  revert q; induction p as [|a p IH]; intros q H; [now exists q|].
  destruct q as [|b q]; [discriminate|]. simpl in H.
  apply andb_prop in H as [E H]. apply String.eqb_eq in E. subst b.
  destruct (IH q H) as [r ->]. now exists r.
Qed.

Lemma is_prefix_app_r p r : is_prefix p (p ++ r)%list = true.
Proof.
  induction p as [|a p IH]; [reflexivity|].
  simpl. now rewrite String.eqb_refl.
Qed.

Lemma is_dir_exists n p : is_dir n p = true -> path_exists n p = true.
Proof. unfold is_dir, path_exists. now destruct (lookup n p). Qed.


Lemma mkdir_parents_existing n p : is_dir n p = true -> mkdir_parents n p = Ret n.
Proof.
  revert n; induction p as [|c p IH]; intros n H.
  - destruct n; [discriminate | reflexivity].
  - destruct n as [text|kids]; [discriminate|].
    unfold is_dir in H. simpl in H. simpl.
    destruct (kids !! c) as [k|] eqn:K; [|discriminate].
    simpl. rewrite (IH k H). simpl. now rewrite insert_id.
Qed.

Lemma mkdir_parents_is_dir n p n' : mkdir_parents n p = Ret n' -> is_dir n' p = true.
Proof.
  revert n n'; induction p as [|c p IH]; intros n n' H.
  - destruct n; [discriminate|]. simpl in H. inversion H. reflexivity.
  - destruct n as [text|kids]; [discriminate|]. simpl in H.
    destruct (mkdir_parents (default (Dir ∅) (kids !! c)) p) as [k|] eqn:M; [|discriminate].
    simpl in H. inversion H. unfold is_dir. simpl. rewrite lookup_insert_eq.
    apply (IH _ _ M).
Qed.

Lemma graft_keeps n q x p :
  is_dir n p = true -> is_prefix q p = false -> is_dir (graft n q x) p = true.
Proof.
  revert n p; induction q as [|c q IH]; intros n p D P; [discriminate|].
  destruct p as [|b p]; [reflexivity|].
  simpl in P. unfold is_dir in *. simpl in *.
  destruct (kids_of n !! b) as [k|] eqn:K; [|discriminate].
  destruct (String.eqb c b) eqn:E.
  - apply String.eqb_eq in E. subst b. rewrite lookup_insert_eq, K. simpl.
    apply IH; assumption.
  - apply String.eqb_neq in E. rewrite lookup_insert_ne by congruence. now rewrite K.
Qed.

Lemma prune_keeps n q p :
  is_dir n p = true -> is_prefix q p = false -> is_dir (prune n q) p = true.
Proof.
  revert n p; induction q as [|c q IH]; intros n p D P; [discriminate|].
  destruct p as [|b p].
  - destruct n as [text|kids]; [discriminate|].
    simpl. destruct q; [reflexivity|]. now destruct (kids !! c).
  - simpl in P. destruct n as [text|kids]; [discriminate|].
    unfold is_dir in *. simpl in D.
    destruct (kids !! b) as [k|] eqn:K; [|discriminate].
    destruct (String.eqb c b) eqn:E.
    + apply String.eqb_eq in E. subst b. simpl in P.
      destruct q as [|c' q]; [discriminate|].
      simpl. rewrite K. simpl. rewrite lookup_insert_eq. apply IH; assumption.
    + apply String.eqb_neq in E.
      destruct q as [|c' q]; simpl.
      * rewrite lookup_delete_ne by congruence. now rewrite K.
      * destruct (kids !! c); simpl; [rewrite lookup_insert_ne by congruence|]; now rewrite K.
Qed.

(** after [prune], nothing is left at the path or below it *)
Lemma prune_gone n p q : p <> [] -> lookup (prune n p) (p ++ q)%list = None.
Proof.
  revert n; induction p as [|c p IH]; intros n Hp; [congruence|].
  destruct n as [text|kids].
  - now destruct p.
  - destruct p as [|c' p].
    + simpl. now rewrite lookup_delete_eq.
    + change (prune (Dir kids) (c :: c' :: p))
        with (match kids !! c with
              | Some k => Dir (<[c := prune k (c' :: p)]> kids)
              | None => Dir kids
              end).
      destruct (kids !! c) as [k|] eqn:K.
      * change (lookup (Dir (<[c := prune k (c' :: p)]> kids)) ((c :: c' :: p) ++ q)%list)
          with (match <[c := prune k (c' :: p)]> kids !! c with
                | Some k' => lookup k' ((c' :: p) ++ q)%list
                | None => None
                end).
        rewrite lookup_insert_eq. apply IH. discriminate.
      * simpl. now rewrite K.
Qed.

Lemma obstructed_mkdir n p :
  obstructed n p = false <-> exists n', mkdir_parents n p = Ret n'.
Proof.
  revert n; induction p as [|c p IH]; intros n.
  - destruct n; simpl; split; try discriminate; eauto. intros [? ?]; discriminate.
  - destruct n as [text|kids]; simpl.
    + split; [discriminate | intros [? ?]; discriminate].
    + destruct (kids !! c) as [k|] eqn:K; simpl.
      * rewrite IH. split; intros [k' H].
        -- rewrite H. simpl. eauto.
        -- destruct (mkdir_parents k p); [eauto | discriminate].
      * split; [|reflexivity]. intros _.
        assert (H : exists k', mkdir_parents (Dir ∅) p = Ret k').
        { clear. induction p as [|c p [k' IH]]; simpl; [eauto|].
          rewrite lookup_empty. simpl. rewrite IH. simpl. eauto. }
        destruct H as [k' ->]. simpl. eauto.
Qed.

(** ** The installer *)

Lemma contains_split_once ch s :
  contains ch s = false -> split_once ch s = None.
Proof.
  induction s as [|c s IH]; simpl; [reflexivity|].
  destruct (Ascii.eqb c ch); simpl; [discriminate|].
  intros H. now rewrite IH.
Qed.


Section MarketFacts.
Variable git : list string -> node -> run_result.
Variable describe : exn -> string.


(** C7: when a directory for the resolved skill name exists under the
    target root, [install_skill] returns the already-installed message and
    leaves the world as it found it: the file tree is the same and no
    command was handed to [subprocess.run]. *)
Theorem already_installed_is_left_alone skill_ref skills_dir w repo_url skill_name :
  resolve_ref skill_ref = Some (repo_url, skill_name) ->
  is_dir (files w) (path_div skills_dir skill_name) = true ->
  is_prefix skills_dir (path_div skills_dir skill_name) = true ->
  install_skill git describe skill_ref skills_dir w
  = (Ret ("Skill '" ++ skill_name
          ++ "' is already installed. Remove it first to reinstall."), w).
Proof.
  intros R D P.
  destruct (is_prefix_app _ _ P) as [r E].
  assert (Ds : is_dir (files w) skills_dir = true).
  { rewrite E in D. now apply is_dir_prefix in D. }
  unfold install_skill, bind, mkdir, on_files, exists_path.
  rewrite (mkdir_parents_existing _ _ Ds), R. simpl.
  rewrite (is_dir_exists _ _ D). now destruct w.
Qed.












Lemma split_head ch s : exists h t, split ch s = h :: t.
Proof.
  induction s as [|c s [h [t IH]]]; simpl; [eauto|].
  destruct (Ascii.eqb c ch); [eauto|]. rewrite IH. eauto.
Qed.







End MarketFacts.

(** ** The skill name of a reference *)

Lemma split_no_sep ch s : contains ch s = false -> split ch s = [s].
Proof.
  induction s as [|c s IH]; simpl; [reflexivity|].
  destruct (Ascii.eqb c ch); simpl; [discriminate|].
  intros H. now rewrite IH.
Qed.

Lemma split_with_sep ch s :
  contains ch s = true -> exists h x t, split ch s = h :: x :: t.
Proof.
  induction s as [|c s IH]; simpl; [discriminate|].
  destruct (Ascii.eqb c ch); simpl.
  - intros _. destruct (split_head ch s) as [h [t ->]]. eauto.
  - intros H. destruct (IH H) as (h & x & t & ->). eauto.
Qed.

(** the last piece of [s.split("/")] is the text after the last [/] *)
Lemma last_piece_trailing s : last_piece (split slash s) = trailing_segment s.
Proof.
  unfold last_piece.
  induction s as [|c s IH]; [reflexivity|].
  simpl. destruct (contains slash s) eqn:C.
  - destruct (split_with_sep slash s C) as (h & x & t & E).
    rewrite <- IH, E. now destruct (Ascii.eqb c slash).
  - rewrite (split_no_sep slash s C).
    now destruct (Ascii.eqb c slash).
Qed.

Lemma trailing_no_sep s : contains slash s = false -> trailing_segment s = s.
Proof.
  destruct s as [|c s]; [reflexivity|]. simpl.
  destruct (Ascii.eqb c slash); simpl; [discriminate|]. now intros ->.
Qed.

(** [remove_skill] works with the text after the last [/] *)
Lemma remove_name_trailing skill_ref : remove_name skill_ref = trailing_segment skill_ref.
Proof.
  unfold remove_name. destruct (contains slash skill_ref) eqn:C.
  - apply last_piece_trailing.
  - symmetry. now apply trailing_no_sep.
Qed.

Lemma rstrip_char_keeps ch s : ends_with ch s = false -> rstrip_char ch s = s.
Proof.
  unfold ends_with.
  induction s as [|c s IH]; [reflexivity|].
  simpl. destruct s as [|d s].
  - simpl. now intros ->.
  - intros H. rewrite (IH H). reflexivity.
Qed.

Lemma contains_occurrences ch s : contains ch s = false <-> occurrences ch s = 0%nat.
Proof.
  induction s as [|c s IH]; simpl; [tauto|].
  destruct (Ascii.eqb c ch); simpl; [split; [discriminate | lia]|exact IH].
Qed.

Lemma split_once_rest ch s a b :
  split_once ch s = Some (a, b) -> occurrences ch s = S (occurrences ch b).
Proof.
  revert a; induction s as [|c s IH]; intros a; simpl; [discriminate|].
  destruct (Ascii.eqb c ch); simpl.
  - intros H. now inversion H.
  - destruct (split_once ch s) as [[a' b']|]; [|discriminate].
    intros H. inversion H; subst. now apply (IH a').
Qed.

Lemma split_once_trailing s a b :
  split_once slash s = Some (a, b) -> contains slash b = false -> trailing_segment s = b.
Proof.
  revert a; induction s as [|c s IH]; intros a; simpl; [discriminate|].
  destruct (Ascii.eqb c slash) eqn:E; simpl.
  - intros H Hb. inversion H; subst. now rewrite Hb.
  - destruct (split_once slash s) as [[a' b']|] eqn:S; [|discriminate].
    intros H Hb. inversion H; subst.
    assert (C : contains slash s = true).
    { destruct (contains slash s) eqn:C; [reflexivity|].
      rewrite (contains_split_once _ _ C) in S. discriminate. }
    rewrite C. now apply (IH a').
Qed.

(** where [install_skill] and [remove_skill] resolve the same name *)
Lemma names_agree skill_ref :
  (startswith "http" skill_ref = true /\ ends_with slash skill_ref = false)
  \/ (startswith "http" skill_ref = false /\ occurrences slash skill_ref = 1%nat) ->
  install_name skill_ref = Some (remove_name skill_ref).
Proof.
  rewrite remove_name_trailing. unfold install_name, resolve_ref.
  intros [[Hh He]|[Hh Ho]]; rewrite Hh.
  - rewrite (rstrip_char_keeps _ _ He). now rewrite last_piece_trailing.
  - destruct (contains slash skill_ref) eqn:C.
    + destruct (split_once slash skill_ref) as [[owner skill_name]|] eqn:S.
      * f_equal. symmetry. apply (split_once_trailing _ _ _ S).
        apply contains_occurrences. apply split_once_rest in S. lia.
      * exfalso. clear Hh. induction skill_ref as [|c s IH]; simpl in *; [discriminate|].
        destruct (Ascii.eqb c slash); simpl in *; [discriminate|].
        destruct (split_once slash s); [destruct p; discriminate|]. now apply IH.
    + apply contains_occurrences in C. lia.
Qed.

Lemma trailing_without_sep s : contains slash (trailing_segment s) = false.
Proof.
  induction s as [|c s IH]; [reflexivity|].
  simpl. destruct (contains slash s) eqn:C; [exact IH|].
  destruct (Ascii.eqb c slash) eqn:E; [exact C|].
  simpl. now rewrite E, C.
Qed.

Lemma trailing_empty s :
  trailing_segment s = "" -> s = "" \/ ends_with slash s = true.
Proof.
  unfold ends_with.
  induction s as [|c s IH]; [now left|]. right.
  simpl in H |- *. destruct (contains slash s) eqn:C.
  - destruct (IH H) as [->|E]; [discriminate|].
    destruct s; [discriminate | exact E].
  - destruct (Ascii.eqb c slash) eqn:E; [|discriminate].
    subst s. exact E.
Qed.

Lemma ends_with_trailing s : ends_with slash s = true -> trailing_segment s = "".
Proof.
  unfold ends_with.
  induction s as [|c s IH]; [discriminate|].
  simpl. destruct s as [|d s].
  - intros ->. reflexivity.
  - intros H. specialize (IH H).
    assert (C : contains slash (String d s) = true).
    { destruct (contains slash (String d s)) eqn:C; [reflexivity|].
      rewrite (trailing_no_sep _ C) in IH. discriminate. }
    now rewrite C.
Qed.

Lemma rstrip_char_clean ch s : ends_with ch (rstrip_char ch s) = false.
Proof.
  unfold ends_with.
  induction s as [|c s IH]; [reflexivity|].
  simpl. destruct (rstrip_char ch s) as [|d r] eqn:R.
  - destruct (Ascii.eqb c ch) eqn:E; simpl; [reflexivity | exact E].
  - exact IH.
Qed.

Lemma rstrip_char_head ch c s :
  Ascii.eqb c ch = false -> exists r, rstrip_char ch (String c s) = String c r.
Proof.
  intros E. simpl. destruct (rstrip_char ch s); [rewrite E|]; eauto.
Qed.

(** ... and nowhere else *)
Lemma names_agree_only skill_ref :
  install_name skill_ref = Some (remove_name skill_ref) ->
  (startswith "http" skill_ref = true /\ ends_with slash skill_ref = false)
  \/ (startswith "http" skill_ref = false /\ occurrences slash skill_ref = 1%nat).
Proof.
  rewrite remove_name_trailing. unfold install_name, resolve_ref.
  destruct (startswith "http" skill_ref) eqn:Hh.
  - intros H. left. split; [reflexivity|].
    destruct (ends_with slash skill_ref) eqn:E; [|reflexivity]. exfalso.
    rewrite (ends_with_trailing _ E), last_piece_trailing in H.
    inversion H as [T]. apply trailing_empty in T.
    rewrite rstrip_char_clean in T.
    destruct skill_ref as [|c s]; [discriminate|].
    assert (Hc : Ascii.eqb c slash = false).
    { destruct (Ascii.eqb c slash) eqn:Hc; [|reflexivity].
      apply Ascii.eqb_eq in Hc. subst c.
      change (startswith "http" (String slash s)) with false in Hh. discriminate. }
    destruct (rstrip_char_head slash c s Hc) as [r R]. rewrite R in T.
    destruct T; discriminate.
  - intros H. right. split; [reflexivity|].
    destruct (contains slash skill_ref); [|discriminate].
    destruct (split_once slash skill_ref) as [[owner skill_name]|] eqn:S; [|discriminate].
    inversion H as [T].
    rewrite (split_once_rest _ _ _ _ S). f_equal.
    apply contains_occurrences. rewrite T. apply trailing_without_sep.
Qed.

(** *** Ordinary names *)

Import Shapes Limits.

Lemma startswith_slash_plain s : contains slash s = false -> startswith "/" s = false.
Proof.
  destruct s as [|c s]; [reflexivity|]. intros H. simpl in H.
  apply orb_false_elim in H as [H _]. apply Ascii.eqb_neq in H.
  unfold startswith.
  change (String.prefix "/" (String c s))
    with (if ascii_dec "/" c then String.prefix "" s else false).
  destruct (ascii_dec "/" c) as [E|]; [|reflexivity].
  now destruct H.
Qed.

Lemma path_div_plain p s : plain_name s -> path_div p s = (p ++ [s])%list.
Proof.
  intros (C & N & D). unfold path_div, parts.
  rewrite (startswith_slash_plain s C), (split_no_sep slash s C). simpl.
  apply String.eqb_neq in N, D. now rewrite N, D.
Qed.

Lemma ordinary_plain s : ordinary_name s = true -> plain_name s.
Proof.
  unfold ordinary_name. intros H.
  repeat (apply andb_prop in H as [H ?]).
  repeat match goal with X : negb _ = true |- _ => apply negb_true_iff in X end.
  repeat split; [assumption | now apply String.eqb_neq | now apply String.eqb_neq].
Qed.

Lemma path_div_ordinary p s : ordinary_name s = true -> path_div p s = (p ++ [s])%list.
Proof. intros H. now apply path_div_plain, ordinary_plain. Qed.

Lemma ordinary_target p s : ordinary_name s = true -> path_div p s <> [].
Proof. intros H. rewrite (path_div_ordinary p s H). now destruct p. Qed.

(** ** Installing and removing *)

Lemma app_nil_path (p : path) : (p ++ [])%list = p.
Proof. now rewrite app_nil_r. Qed.

(** [remove_skill] never raises, and changes nothing unless it finds a
    directory *)
Lemma remove_without_directory describe skill_ref skills_dir w :
  is_dir (files w) (path_div skills_dir (remove_name skill_ref)) = false ->
  exists msg, remove_skill describe skill_ref skills_dir w = (Ret msg, w)
              /\ (path_exists (files w) (path_div skills_dir (remove_name skill_ref)) = false ->
                  msg = "Skill '" ++ remove_name skill_ref ++ "' is not installed.").
Proof.
  intros D. destruct w as [fs log].
  unfold remove_skill, bind, exists_path, on_files, try_except, ret.
  cbv zeta. unfold path_exists, is_dir, rmtree in *. simpl in *.
  destruct (lookup fs (path_div skills_dir (remove_name skill_ref)))
    as [[text|kids]|] eqn:L;
    simpl; rewrite ?L; simpl; try discriminate; eexists; (split; [reflexivity|]);
    [discriminate | reflexivity].
Qed.

Lemma remove_directory describe skill_ref skills_dir w :
  is_dir (files w) (path_div skills_dir (remove_name skill_ref)) = true ->
  path_div skills_dir (remove_name skill_ref) <> [] ->
  remove_skill describe skill_ref skills_dir w
  = (Ret ("Successfully removed skill '" ++ remove_name skill_ref ++ "'."),
     {| files := prune (files w) (path_div skills_dir (remove_name skill_ref));
        spawned := spawned w |}).
Proof.
  intros D N. destruct w as [fs log].
  unfold remove_skill, bind, exists_path, on_files, try_except, ret.
  cbv zeta. unfold path_exists, is_dir, rmtree in *. simpl in *.
  destruct (lookup fs (path_div skills_dir (remove_name skill_ref)))
    as [[text|kids]|] eqn:L; try discriminate.
  simpl. rewrite L.
  destruct (path_div skills_dir (remove_name skill_ref)); [congruence | reflexivity].
Qed.

(** C1, as amended.  For a reference that does not end in [/]: where it
    is a URL, or has exactly one [/], [remove_skill] resolves the skill
    name that [install_skill] resolves; the name [remove_skill] resolves
    is the text after the last [/] of the reference, and is not empty
    unless the reference is.  Where that name is an ordinary name and the
    target path is within the limits of the file system, [remove_skill]
    returns a message and leaves the world as it is when there is no
    directory at the target path (the message says that the skill is not
    installed when nothing is there), and otherwise takes the directory
    out with all that is below it and reports success. *)
Theorem remove_resolves_like_install (describe : exn -> string) :
  (forall skill_ref,
      ends_with slash skill_ref = false ->
      (startswith "http" skill_ref = true \/ occurrences slash skill_ref = 1%nat ->
       install_name skill_ref = Some (remove_name skill_ref))
      /\ remove_name skill_ref = trailing_segment skill_ref
      /\ (skill_ref <> "" -> remove_name skill_ref <> ""))
  /\ (forall skill_ref skills_dir w,
         ordinary_name (remove_name skill_ref) = true ->
         within_limits (path_div skills_dir (remove_name skill_ref)) = true ->
         (is_dir (files w) (path_div skills_dir (remove_name skill_ref)) = false ->
          exists msg,
            remove_skill describe skill_ref skills_dir w = (Ret msg, w)
            /\ (path_exists (files w) (path_div skills_dir (remove_name skill_ref)) = false ->
                msg = "Skill '" ++ remove_name skill_ref ++ "' is not installed."))
         /\ (is_dir (files w) (path_div skills_dir (remove_name skill_ref)) = true ->
             exists w',
               remove_skill describe skill_ref skills_dir w
               = (Ret ("Successfully removed skill '" ++ remove_name skill_ref ++ "'."), w')
               /\ spawned w' = spawned w
               /\ forall q, lookup (files w')
                                   (path_div skills_dir (remove_name skill_ref) ++ q)%list
                            = None)).
Proof.
  split.
  - intros skill_ref E. split; [|split].
    + intros H. apply names_agree.
      destruct (startswith "http" skill_ref) eqn:Hh; [now left | right].
      split; [reflexivity|]. now destruct H.
    + apply remove_name_trailing.
    + intros N T. rewrite remove_name_trailing in T.
      apply trailing_empty in T as [T|T]; congruence.
  - intros skill_ref skills_dir w O _. split; intros D.
    + now apply remove_without_directory.
    + eexists. split; [apply remove_directory; [exact D | now apply ordinary_target]|].
      split; [reflexivity|]. intros q. apply prune_gone. now apply ordinary_target.
Qed.

Lemma remove_resolves_like_install_witness :
  (install_name "owner/foo" = Some (remove_name "owner/foo")
   /\ remove_name "owner/foo" = trailing_segment "owner/foo"
   /\ remove_name "owner/foo" <> "")
  /\ (exists msg,
        remove_skill class_name "owner/foo" ["skills"] (fresh empty_tree)
        = (Ret msg, fresh empty_tree)
        /\ msg = "Skill 'foo' is not installed.")
  /\ exists w',
       remove_skill class_name "owner/foo" ["skills"] (fresh foo_installed)
       = (Ret "Successfully removed skill 'foo'.", w')
       /\ spawned w' = []
       /\ forall q, lookup (files w') (["skills"; "foo"] ++ q)%list = None.
Proof.
  split; [|split].
  - destruct (proj1 (remove_resolves_like_install class_name) "owner/foo" eq_refl)
      as (A & B & C).
    split; [apply A; right; reflexivity|]. split; [exact B|]. apply C. discriminate.
  - destruct (proj1 (proj2 (remove_resolves_like_install class_name)
                       "owner/foo" ["skills"] (fresh empty_tree) eq_refl eq_refl)
                eq_refl) as (msg & E & Hm).
    exists msg. split; [exact E|]. apply Hm. reflexivity.
  - apply (proj2 (proj2 (remove_resolves_like_install class_name)
                    "owner/foo" ["skills"] (fresh foo_installed) eq_refl eq_refl)).
    reflexivity.
Defined.

(** C1, as stated, fails: [install_skill] has no name for [foo], keeps
    [b/c] of [a/b/c] where [remove_skill] keeps [c], and cuts the closing
    [/] of a URL that [remove_skill] does not cut. *)
Lemma remove_resolves_other_names :
  (install_name "foo" = None /\ remove_name "foo" = "foo")
  /\ (install_name "a/b/c" = Some "b/c" /\ remove_name "a/b/c" = "c")
  /\ (install_name "https://github.com/o/foo/" = Some "foo"
      /\ remove_name "https://github.com/o/foo/" = "")
  /\ ~ (forall skill_ref,
           install_name skill_ref = Some (remove_name skill_ref)
           /\ remove_name skill_ref = trailing_segment skill_ref).
Proof.
  repeat split; try reflexivity.
  intros H. destruct (H "foo") as [E _]. discriminate E.
Qed.

Lemma already_installed_is_left_alone_witness :
  install_skill git_fetches_foo class_name "owner/foo" ["skills"] (fresh foo_installed)
  = (Ret "Skill 'foo' is already installed. Remove it first to reinstall.",
     fresh foo_installed).
Proof.
  apply (already_installed_is_left_alone git_fetches_foo class_name
           "owner/foo" ["skills"] (fresh foo_installed)
           "https://github.com/owner/skills" "foo");
    reflexivity.
Defined.





(** C3, at a failing input: the clone succeeds, [git sparse-checkout]
    exits with 128 and an error output, and the skill path is missing.
    [install_skill] answers that the skill was not found; the error
    output of the failed command is not in the message.  The temporary
    directory is gone, and a failed clone is reported with its error
    output. *)
Theorem checkout_failure_is_not_reported :
  (install_skill git_sparse_fails class_name "owner/foo" ["skills"] (fresh empty_tree)).1
  = Ret "Error: Skill 'foo' not found in repository."
  /\ git_sparse_fails ["git"; "-C"; "/skills/.tmp_foo"; "sparse-checkout"; "set"; "skills/foo"]
                      (Dir ∅)
     = Exited 128 "fatal: this worktree is not sparse" ∅
  /\ spawned (install_skill git_sparse_fails class_name "owner/foo" ["skills"]
                            (fresh empty_tree)).2
     = [["git"; "clone"; "--depth"; "1"; "--filter=blob:none"; "--sparse";
         "https://github.com/owner/skills"; "/skills/.tmp_foo"];
        ["git"; "-C"; "/skills/.tmp_foo"; "sparse-checkout"; "set"; "skills/foo"]]
  /\ path_exists (files (install_skill git_sparse_fails class_name "owner/foo" ["skills"]
                                       (fresh empty_tree)).2)
                 ["skills"; ".tmp_foo"] = false
  /\ (install_skill git_clone_fails class_name "owner/foo" ["skills"] (fresh empty_tree)).1
     = Ret "Error cloning repository: fatal: repository not found".
Proof. repeat split; vm_compute; reflexivity. Qed.

(** A successful run, for comparison: the skill is moved into place and
    the temporary directory removed. *)
Example install_foo :
  (install_skill git_fetches_foo class_name "owner/foo" ["skills"] (fresh empty_tree)).1
  = Ret "Successfully installed skill 'foo'."
  /\ files (install_skill git_fetches_foo class_name "owner/foo" ["skills"]
                          (fresh empty_tree)).2
     = foo_installed.
Proof. split; vm_compute; reflexivity. Qed.


Lemma lookup_graft n p x : lookup (graft n p x) p = Some x.
Proof.
  revert n; induction p as [|c p IH]; intros n; [reflexivity|].
  simpl. rewrite lookup_insert_eq. apply IH.
Qed.

Lemma rmtree_directory fs p kids :
  lookup fs p = Some (Dir kids) -> p <> [] -> rmtree fs p = (Ret tt, prune fs p).
Proof.
  intros L N. unfold rmtree. rewrite L. now destruct p.
Qed.


(** ** More on the descriptor parser *)

Import Shapes.

Lemma after_blank_newline_complete ws r :
  all_space ws -> In r (after_blank_newline (ws ++ String nl r)).
Proof.
  induction ws as [|c ws IH]; intros W.
  - rewrite append_nil. simpl.
    apply in_or_app. right. now left.
  - unfold all_space in W. simpl in W. apply andb_prop in W as [Hc W].
    rewrite append_cons. simpl. rewrite Hc.
    apply in_or_app. left. now apply IH.
Qed.

Lemma closing_delimiter_complete ws rest :
  all_space ws -> exists r, closing_delimiter (closing ++ ws ++ String nl rest) = Some r.
Proof.
  intros W. unfold closing_delimiter.
  change (strip_prefix closing (closing ++ ws ++ String nl rest))
    with (Some (ws ++ String nl rest)).
  cbv beta iota.
  pose proof (after_blank_newline_complete ws rest W) as I.
  destruct (after_blank_newline (ws ++ String nl rest)); [destruct I | eexists; reflexivity].
Qed.

Lemma lazy_group_complete g ws rest :
  all_space ws ->
  exists g' r, lazy_group (g ++ closing ++ ws ++ String nl rest) = Some (g', r).
Proof.
  intros W. induction g as [|c g (g' & r & IH)].
  - rewrite append_nil, lazy_group_eq.
    destruct (closing_delimiter_complete ws rest W) as [r ->]. eauto.
  - rewrite append_cons, lazy_group_eq.
    destruct (closing_delimiter (String c (g ++ closing ++ ws ++ String nl rest))); [eauto|].
    rewrite IH. eauto.
Qed.

Lemma first_success_complete {A B} (f : A -> option B) l x y :
  In x l -> f x = Some y -> exists y', first_success f l = Some y'.
Proof.
  induction l as [|a l IH]; [intros []|]. intros [->|I] F; simpl.
  - rewrite F. eauto.
  - destruct (f a); [eauto | now apply IH].
Qed.

(** X1: the frontmatter pattern matches exactly the contents that begin
    with a line of three dashes and hold, later, a line that starts with
    three dashes; blanks may follow the dashes on either line. *)
Theorem frontmatter_match_shape content :
  (exists group1 rest, frontmatter_match content = Some (group1, rest))
  <-> exists ws1 group1 ws2 rest,
        all_space ws1 /\ all_space ws2 /\ content = descriptor ws1 group1 ws2 rest.
Proof.
  split.
  - intros (g & rest & M).
    destruct (frontmatter_match_sound content g rest M) as (ws1 & ws2 & W1 & W2 & E).
    now exists ws1, g, ws2, rest.
  - intros (ws1 & g & ws2 & rest & W1 & W2 & ->).
    unfold frontmatter_match, descriptor.
    change (strip_prefix "---" ("---" ++ ?x)) with (Some x).
    cbv beta iota.
    destruct (lazy_group_complete g ws2 rest W2) as (g' & r & L).
    destruct (first_success_complete lazy_group
                (after_blank_newline (ws1 ++ String nl (g ++ String nl ("---" ++ ws2 ++ String nl rest))))
                _ _ (after_blank_newline_complete ws1 _ W1) L) as [[g2 r2] F].
    eauto.
Qed.

Lemma lazy_group_first a : forall s g rest b t,
  lazy_group s = Some (g, rest) ->
  s = (a ++ b) ++ t -> g = a ++ b -> b <> "" ->
  closing_delimiter (b ++ t) = None.
Proof.
  induction a as [|c a IH]; intros s g rest b t L Es Eg Hb;
    rewrite lazy_group_eq in L.
  - rewrite append_nil in Es, Eg. subst s g.
    destruct (closing_delimiter (b ++ t)); [|reflexivity].
    inversion L. congruence.
  - rewrite !append_cons in Es. rewrite append_cons in Eg. subst s g.
    destruct (closing_delimiter (String c ((a ++ b) ++ t))); [discriminate|].
    destruct (lazy_group ((a ++ b) ++ t)) as [[g' r']|] eqn:L'; [|discriminate].
    inversion L; subst g' r'.
    now apply (IH _ _ _ b t L').
Qed.

(** X2: the frontmatter ends at the first closing line: no closing line
    starts inside group 1. *)
Theorem frontmatter_ends_at_first_closing_line content group1 rest :
  frontmatter_match content = Some (group1, rest) ->
  exists ws1 ws2,
    all_space ws1 /\ all_space ws2
    /\ content = descriptor ws1 group1 ws2 rest
    /\ forall a b ws r,
         group1 = a ++ b -> b <> "" -> all_space ws ->
         b ++ String nl ("---" ++ ws2 ++ String nl rest)
         <> String nl ("---" ++ ws ++ String nl r).
Proof.
  unfold frontmatter_match. intros H.
  destruct (strip_prefix "---" content) as [r0|] eqn:P; [|discriminate].
  apply strip_prefix_app in P.
  destruct (first_success_In _ _ _ H) as [x [I L]].
  destruct (after_blank_newline_In _ _ I) as [ws1 [W1 E1]].
  destruct (lazy_group_sound _ _ _ L) as [ws2 [W2 E2]].
  exists ws1, ws2. repeat split; trivial.
  - unfold descriptor. rewrite P, E1, E2. reflexivity.
  - intros a b ws r Eg Hb W E.
    assert (N := lazy_group_first a x group1 rest b (closing ++ ws2 ++ String nl rest) L).
    rewrite <- Eg in N. specialize (N E2 eq_refl Hb).
    change (closing ++ ws2 ++ String nl rest)
      with (String nl ("---" ++ ws2 ++ String nl rest)) in N.
    rewrite E in N.
    destruct (closing_delimiter_complete ws r W) as [r' C].
    change (closing ++ ws ++ String nl r) with (String nl ("---" ++ ws ++ String nl r)) in C.
    congruence.
Qed.

Lemma frontmatter_ends_at_first_closing_line_witness :
  exists ws1 ws2,
    all_space ws1 /\ all_space ws2
    /\ word_md = descriptor ws1 "hello" ws2 ""
    /\ forall a b ws r,
         "hello" = a ++ b -> b <> "" -> all_space ws ->
         b ++ String nl ("---" ++ ws2 ++ String nl "")
         <> String nl ("---" ++ ws ++ String nl r).
Proof.
  apply (frontmatter_ends_at_first_closing_line word_md "hello" "").
  reflexivity.
Defined.

Lemma frontmatter_match_shape_witness :
  exists group1 rest, frontmatter_match word_md = Some (group1, rest).
Proof.
  apply (proj2 (frontmatter_match_shape word_md)).
  exists "", "hello", "", "". repeat split.
Defined.

Lemma dashed_cons_char c first others :
  String c (dashed first others) = dashed (String c first) others.
Proof. reflexivity. Qed.

Lemma dashed_dash w ws :
  String dash (dashed w ws) = dashed "" (w :: ws).
Proof. reflexivity. Qed.

Lemma name_scan_start_dash s : name_scan AfterDash s = name_scan AtStart s.
Proof. destruct s as [|c s]; [reflexivity|]. simpl. now destruct (is_lower_or_digit c). Qed.

Lemma not_word_char_dash : is_lower_or_digit dash = false.
Proof. reflexivity. Qed.

Lemma not_word_char_nl : is_lower_or_digit nl = false.
Proof. reflexivity. Qed.

(** what the scan accepts, by the state it is in *)
Lemma name_scan_sound s :
  (name_scan InWord s = true ->
   exists w ws, all_chars is_lower_or_digit w = true /\ Forall word ws
                /\ (s = dashed w ws \/ s = dashed w ws ++ String nl ""))
  /\ (name_scan AtStart s = true ->
      exists w ws, word w /\ Forall word ws
                   /\ (s = dashed w ws \/ s = dashed w ws ++ String nl "")).
Proof.
  induction s as [|c s [IHw IHs]]; split; simpl.
  - intros _. exists "", []. repeat split; [constructor | now left].
  - discriminate.
  - destruct (is_lower_or_digit c) eqn:Hc.
    + intros H. destruct (IHw H) as (w & ws & Hw & Hws & E).
      exists (String c w), ws. split; [simpl; now rewrite Hc|]. split; [exact Hws|].
      destruct E as [->| ->]; [left | right]; reflexivity.
    + destruct (Ascii.eqb c dash) eqn:Hd.
      * apply Ascii.eqb_eq in Hd. subst c. rewrite name_scan_start_dash.
        intros H. destruct (IHs H) as (w & ws & Hw & Hws & E).
        exists "", (w :: ws). split; [reflexivity|]. split; [now constructor|].
        destruct E as [->| ->]; [left | right]; reflexivity.
      * intros H. apply andb_prop in H as [Hn He].
        apply Ascii.eqb_eq in Hn. apply String.eqb_eq in He. subst c s.
        exists "", []. repeat split; [constructor | now right].
  - destruct (is_lower_or_digit c) eqn:Hc; [|discriminate].
    intros H. destruct (IHw H) as (w & ws & Hw & Hws & E).
    exists (String c w), ws. split; [split; [discriminate | simpl; now rewrite Hc]|].
    split; [exact Hws|].
    destruct E as [->| ->]; [left | right]; reflexivity.
Qed.

Lemma name_scan_word w t :
  all_chars is_lower_or_digit w = true ->
  name_scan InWord (w ++ t) = name_scan InWord t.
Proof.
  induction w as [|c w IH]; [reflexivity|]. simpl.
  intros H. apply andb_prop in H as [Hc Hw].
  rewrite ?append_cons. simpl. rewrite Hc. now apply IH.
Qed.

Lemma name_scan_after_dashes ws e :
  Forall word ws -> name_scan InWord e = true ->
  name_scan InWord (after_dashes ws ++ e) = true.
Proof.
  intros Hws He. induction Hws as [|w ws [Hn Hw] _ IH]; [exact He|].
  simpl after_dashes. rewrite append_cons.
  change (name_scan InWord (String dash ?x)) with (name_scan AfterDash x).
  destruct w as [|c w]; [congruence|].
  simpl in Hw. apply andb_prop in Hw as [Hc Hw].
  rewrite !append_cons. simpl. rewrite Hc.
  rewrite !append_assoc. rewrite name_scan_word by exact Hw. exact IH.
Qed.

(** X3: the name pattern accepts exactly the words of [[a-z0-9]] joined by
    single dashes, and the same followed by one newline. *)
Theorem name_pattern_words s :
  name_pattern s = true
  <-> exists w ws, word w /\ Forall word ws
                   /\ (s = dashed w ws \/ s = dashed w ws ++ String nl "").
Proof.
  split.
  - apply name_scan_sound.
  - intros (w & ws & [Hn Hw] & Hws & E).
    assert (T : forall e, name_scan InWord e = true ->
                          name_scan AtStart (dashed w ws ++ e) = true).
    { intros e He. destruct w as [|c w]; [congruence|].
      simpl in Hw. apply andb_prop in Hw as [Hc Hw].
      unfold dashed. rewrite !append_cons. simpl. rewrite Hc.
      rewrite append_assoc, name_scan_word by exact Hw.
      now apply name_scan_after_dashes. }
    unfold name_pattern. destruct E as [->| ->].
    + rewrite <- (T "" eq_refl). f_equal.
      generalize (dashed w ws). intros x. induction x; [reflexivity|].
      rewrite append_cons. now f_equal.
    + now apply T.
Qed.

Lemma name_pattern_words_witness :
  name_pattern ("my-skill" ++ String nl "") = true.
Proof.
  apply (proj2 (name_pattern_words ("my-skill" ++ String nl ""))).
  exists "my", ["skill"]. split; [split; [discriminate | reflexivity]|].
  split; [repeat constructor; discriminate | now right].
Defined.

(** X4: how the parser takes what the loader gives: without a frontmatter
    match, and on a [YAMLError], it returns no record; any other exception
    of the loader leaves the parser; a loaded value that is not a mapping
    makes it raise [AttributeError]. *)
Theorem loader_outcomes (safe_load : string -> outcome pyval) content :
  (frontmatter_match content = None -> parse_content safe_load content = Ret None)
  /\ (forall group1 rest,
         frontmatter_match content = Some (group1, rest) ->
         (safe_load group1 = Raise YAMLError ->
          parse_content safe_load content = Ret None)
         /\ (forall e, e <> YAMLError -> safe_load group1 = Raise e ->
                       parse_content safe_load content = Raise e)
         /\ (forall v, safe_load group1 = Ret v -> (forall items, v <> PDict items) ->
                       parse_content safe_load content = Raise AttributeError)).
Proof.
  split.
  - intros M. unfold parse_content. now rewrite M.
  - intros g rest M. repeat split.
    + intros L. unfold parse_content. now rewrite M, L.
    + intros e Ne L. unfold parse_content. rewrite M, L. now destruct e.
    + intros v L N. now apply (parse_content_not_a_mapping safe_load content g rest v).
Qed.

Lemma loader_outcomes_witness :
  parse_content flat_yaml "no frontmatter here" = Ret None
  /\ parse_content flat_yaml (unlines ["---"; "name: [unclosed"; "---"]) = Ret None.
Proof.
  split.
  - apply (proj1 (loader_outcomes flat_yaml "no frontmatter here")). reflexivity.
  - apply (proj1 (proj2 (loader_outcomes flat_yaml (unlines ["---"; "name: [unclosed"; "---"]))
                   "name: [unclosed" "" eq_refl)).
    reflexivity.
Defined.

(** X5: the optional fields of a returned record are the values of the
    keys [allowed-tools], [license], [compatibility] and [metadata] of
    the frontmatter as loaded, and [None] for a key that is absent. *)
Theorem optional_fields_pass_through (safe_load : string -> outcome pyval) content sk :
  parse_content safe_load content = Ret (Some sk) ->
  exists group1 rest items,
    frontmatter_match content = Some (group1, rest)
    /\ safe_load group1 = Ret (PDict items)
    /\ allowed_tools sk = default PNone (dict_get "allowed-tools" items)
    /\ license sk = default PNone (dict_get "license" items)
    /\ compatibility sk = default PNone (dict_get "compatibility" items)
    /\ metadata sk = default PNone (dict_get "metadata" items).
Proof.
  intros H.
  destruct (parse_content_Some safe_load content sk H)
    as (g & rest & items & M & L & _ & _ & _ & _ & _ & _ & _ & _ & A & Li & C & Me).
  exists g, rest, items. repeat split; trivial.
Qed.

Lemma optional_fields_pass_through_witness :
  exists sk,
    parse_content flat_yaml
      (unlines ["---"; "name: my-skill"; "description: x"; "license: mit";
                "allowed-tools: " ++ quoted "Read,Write"; "---"]) = Ret (Some sk)
    /\ license sk = PStr "mit" /\ allowed_tools sk = PStr "Read,Write"
    /\ compatibility sk = PNone /\ metadata sk = PNone.
Proof.
  eexists. split; [vm_compute; reflexivity|].
  destruct (optional_fields_pass_through flat_yaml _ _
              (eq_refl : parse_content flat_yaml
                 (unlines ["---"; "name: my-skill"; "description: x"; "license: mit";
                           "allowed-tools: " ++ quoted "Read,Write"; "---"]) = Ret (Some _)))
    as (g & rest & items & M & L & A & Li & C & Me).
  vm_compute in M. inversion M; subst g rest.
  vm_compute in L. inversion L; subst items.
  repeat split; assumption.
Defined.

(** ** More on listing the skills *)

Section Listing.
Variable safe_load : string -> outcome pyval.

Lemma visit_all_spec fs skills_dir entries :
  (forall e, In e entries -> returns (visit safe_load fs skills_dir e)) ->
  exists skills,
    visit_all safe_load fs skills_dir entries = Ret skills
    /\ forall sk, In sk skills
                  <-> exists e, In e entries /\ visit safe_load fs skills_dir e = Ret (Some sk).
Proof.
  induction entries as [|e entries IH]; intros R.
  - exists []. split; [reflexivity|]. intros sk. split; [intros [] | intros (e & [] & _)].
  - destruct IH as (skills & V & S); [intros e' I; apply R; now right|].
    destruct (R e (or_introl eq_refl)) as [found F].
    simpl. rewrite F, V. simpl.
    destruct found as [sk0|]; (eexists; split; [reflexivity|]); intros sk;
      simpl; rewrite (S sk); clear S; split.
    + intros [<-|(e' & I & E)]; [exists e; split; [now left | exact F]|].
      exists e'. split; [now right | exact E].
    + intros (e' & [<-|I] & E); [left; congruence | right; eauto].
    + intros (e' & I & E). exists e'. split; [now right | exact E].
    + intros (e' & [<-|I] & E); [congruence | eauto].
Qed.

Lemma visit_entry fs skills_dir d n :
  visit safe_load fs skills_dir (d, n) =
  match n with
  | Dir _ =>
      if startswith "." d then Ret None
      else parse_skill safe_load fs (skills_dir ++ [d; "SKILL.md"])%list
  | File _ => Ret None
  end.
Proof.
  unfold visit. simpl. destruct n; [reflexivity|].
  destruct (startswith "." d); simpl; [reflexivity|].
  change (path_div (skills_dir ++ [d])%list "SKILL.md")
    with ((skills_dir ++ [d]) ++ ["SKILL.md"])%list.
  now rewrite <- app_assoc.
Qed.

(** X6: when the descriptor of every subdirectory that is not hidden can
    be parsed without an exception, [list_skills] returns a list in the
    order of the names, and a record is in it exactly when it is the
    record of such a subdirectory; plain files and hidden directories
    contribute nothing. *)
Theorem list_skills_lists fs skills_dir kids :
  lookup fs skills_dir = Some (Dir kids) ->
  (forall d k, kids !! d = Some (Dir k) -> startswith "." d = false ->
               returns (parse_skill safe_load fs (skills_dir ++ [d; "SKILL.md"])%list)) ->
  exists l,
    list_skills safe_load fs skills_dir = Ret l
    /\ Sorted name_le l
    /\ forall sk,
         In sk l
         <-> exists d k,
               kids !! d = Some (Dir k) /\ startswith "." d = false
               /\ parse_skill safe_load fs (skills_dir ++ [d; "SKILL.md"])%list
                  = Ret (Some sk).
Proof.
  intros L R.
  destruct (visit_all_spec fs skills_dir (map_to_list kids)) as (skills & V & S).
  { intros [d n] I. rewrite visit_entry.
    apply list_elem_of_In, elem_of_map_to_list in I.
    destruct n as [text|k]; [now exists None|].
    destruct (startswith "." d) eqn:H; [now exists None|]. now apply (R d k). }
  exists (sorted_by_name skills). unfold list_skills. rewrite L, V. simpl.
  split; [reflexivity|]. split; [apply sorted_by_name_sorted|].
  intros sk. split.
  - intros I. apply (Permutation_in _ (sorted_by_name_perm skills)) in I.
    apply S in I as ([d n] & I & E). rewrite visit_entry in E.
    apply list_elem_of_In, elem_of_map_to_list in I.
    destruct n as [text|k]; [discriminate|].
    destruct (startswith "." d) eqn:H; [discriminate|]. eauto.
  - intros (d & k & K & H & P).
    apply (Permutation_in _ (Permutation_sym (sorted_by_name_perm skills))).
    apply S. exists (d, Dir k). split.
    + now apply list_elem_of_In, elem_of_map_to_list.
    + rewrite visit_entry, H. exact P.
Qed.

Lemma visit_all_each fs skills_dir entries skills :
  visit_all safe_load fs skills_dir entries = Ret skills ->
  forall e, In e entries -> returns (visit safe_load fs skills_dir e).
Proof.
  revert skills; induction entries as [|e0 entries IH]; intros skills H e I; [destruct I|].
  simpl in H.
  destruct (visit safe_load fs skills_dir e0) as [found|] eqn:F; [|discriminate].
  destruct (visit_all safe_load fs skills_dir entries) as [rest|] eqn:V; [|discriminate].
  destruct I as [<-|I]; [now exists found | now apply (IH rest)].
Qed.

Lemma visit_all_found fs skills_dir entries skills :
  visit_all safe_load fs skills_dir entries = Ret skills ->
  forall sk, In sk skills
             <-> exists e, In e entries /\ visit safe_load fs skills_dir e = Ret (Some sk).
Proof.
  intros H.
  destruct (visit_all_spec fs skills_dir entries (visit_all_each _ _ _ _ H))
    as (skills' & V & S).
  rewrite H in V. now inversion V.
Qed.

End Listing.

Lemma leb_refl s : String.leb s s = true.
Proof. now destruct (String.leb_total s s). Qed.

Lemma named_insert n x l : named n (insert_by_name x l) = named n (x :: l).
Proof.
  induction l as [|y l IH]; [reflexivity|].
  simpl insert_by_name. destruct (String.leb (name x) (name y)) eqn:E; [reflexivity|].
  unfold named in *. simpl in *. rewrite IH.
  destruct (String.eqb (name x) n) eqn:Ex, (String.eqb (name y) n) eqn:Ey; try reflexivity.
  apply String.eqb_eq in Ex, Ey. rewrite Ex, Ey, leb_refl in E. discriminate.
Qed.

Lemma sorted_by_name_stable n l : named n (sorted_by_name l) = named n l.
Proof.
  induction l as [|x l IH]; [reflexivity|].
  unfold sorted_by_name in *. simpl. rewrite named_insert.
  unfold named in *. simpl. now rewrite IH.
Qed.

(** [list_skills] is [list_skills_listed] with the entries in the order
    of [map_to_list] *)
Lemma list_skills_in_key_order safe_load fs skills_dir :
  list_skills safe_load fs skills_dir
  = list_skills_listed safe_load map_to_list fs skills_dir.
Proof. reflexivity. Qed.

(** X7: in whatever order [iterdir] gives the entries of the directory,
    a list returned by [list_skills] is in the order of the names, a
    record is in it exactly when it is the record of a subdirectory that
    is not hidden, it holds each record the loop collected once, and
    records with the same name stand in the order in which the loop met
    them. *)
Theorem list_skills_keeps_order safe_load iterdir fs skills_dir kids l :
  (forall entries, Permutation (iterdir entries) (map_to_list entries)) ->
  lookup fs skills_dir = Some (Dir kids) ->
  list_skills_listed safe_load iterdir fs skills_dir = Ret l ->
  Sorted name_le l
  /\ (forall sk,
         In sk l
         <-> exists d k,
               kids !! d = Some (Dir k) /\ startswith "." d = false
               /\ parse_skill safe_load fs (skills_dir ++ [d; "SKILL.md"])%list
                  = Ret (Some sk))
  /\ exists skills,
       visit_all safe_load fs skills_dir (iterdir kids) = Ret skills
       /\ Permutation l skills
       /\ forall n, named n l = named n skills.
Proof.
  intros P L. unfold list_skills_listed. rewrite L.
  destruct (visit_all safe_load fs skills_dir (iterdir kids)) as [skills|] eqn:V;
    simpl; [|discriminate].
  intros H; inversion H; subst l. split; [apply sorted_by_name_sorted|]. split.
  - intros sk. split.
    + intros I. apply (Permutation_in _ (sorted_by_name_perm skills)) in I.
      apply (visit_all_found _ _ _ _ _ V) in I as ([d n] & I & E).
      rewrite visit_entry in E.
      apply (Permutation_in _ (P kids)), list_elem_of_In, elem_of_map_to_list in I.
      destruct n as [text|k]; [discriminate|].
      destruct (startswith "." d) eqn:Hd; [discriminate|]. eauto.
    + intros (d & k & K & Hd & E).
      apply (Permutation_in _ (Permutation_sym (sorted_by_name_perm skills))).
      apply (visit_all_found _ _ _ _ _ V). exists (d, Dir k). split.
      * apply (Permutation_in _ (Permutation_sym (P kids))).
        now apply list_elem_of_In, elem_of_map_to_list.
      * rewrite visit_entry, Hd. exact E.
  - exists skills. split; [reflexivity|].
    split; [apply sorted_by_name_perm|]. intros n. apply sorted_by_name_stable.
Qed.

Lemma list_skills_lists_witness :
  exists l,
    list_skills flat_yaml (three_skills no_name_md) ["skills"] = Ret l
    /\ Sorted name_le l
    /\ forall sk,
         In sk l
         <-> exists d k,
               (<[ "zeta" := skill_dir (skill_md "zeta") ]>
                (<[ "broken" := skill_dir no_name_md ]>
                 (<[ "alpha" := skill_dir (skill_md "alpha") ]>
                    (∅ : gmap string node)))) !! d = Some (Dir k)
               /\ startswith "." d = false
               /\ parse_skill flat_yaml (three_skills no_name_md)
                    (["skills"] ++ [d; "SKILL.md"])%list = Ret (Some sk).
Proof.
  apply (list_skills_lists flat_yaml (three_skills no_name_md) ["skills"]).
  - reflexivity.
  - intros d k H _.
    apply lookup_insert_Some in H as [[<- _]|[_ H]]; [eexists; vm_compute; reflexivity|].
    apply lookup_insert_Some in H as [[<- _]|[_ H]]; [eexists; vm_compute; reflexivity|].
    apply lookup_insert_Some in H as [[<- _]|[_ H]]; [eexists; vm_compute; reflexivity|].
    rewrite lookup_empty in H. discriminate.
Defined.

Lemma list_skills_keeps_order_witness :
  exists l skills,
    list_skills_listed flat_yaml (fun entries => rev (map_to_list entries))
                       (three_skills no_name_md) ["skills"] = Ret l
    /\ Sorted name_le l
    /\ visit_all flat_yaml (three_skills no_name_md) ["skills"]
                 (rev (map_to_list
                         (<[ "zeta" := skill_dir (skill_md "zeta") ]>
                          (<[ "broken" := skill_dir no_name_md ]>
                           (<[ "alpha" := skill_dir (skill_md "alpha") ]>
                              (∅ : gmap string node))))))
       = Ret skills
    /\ Permutation l skills
    /\ forall n, named n l = named n skills.
Proof.
  assert (E : { l | list_skills_listed flat_yaml
                      (fun entries => rev (map_to_list entries))
                      (three_skills no_name_md) ["skills"] = Ret l })
    by (eexists; vm_compute; reflexivity).
  destruct E as [l E]. exists l.
  destruct (list_skills_keeps_order flat_yaml (fun entries => rev (map_to_list entries))
              (three_skills no_name_md) ["skills"] _ l
              (fun entries => Permutation_sym (Permutation_rev (map_to_list entries)))
              eq_refl E)
    as (A & _ & skills & B & C & D).
  exists skills. repeat split; assumption.
Defined.

(** ** More on the installer *)

Lemma obstructed_raises n p :
  obstructed n p = true -> exists e, mkdir_parents n p = Raise e.
Proof.
  intros O. destruct (mkdir_parents n p) as [n'|e] eqn:M; [|eauto].
  assert (H : obstructed n p = false) by (apply obstructed_mkdir; eauto).
  congruence.
Qed.

Section Installer.
Variable git : list string -> node -> run_result.
Variable describe : exn -> string.

Lemma try_except_returns {A} (m : M A) (h : exn -> A) w :
  exists a, (try_except m (fun e => ret (h e)) w).1 = Ret a.
Proof.
  unfold try_except, ret. destruct (m w) as [[a|e] w']; simpl; eauto.
Qed.

(** X8: for paths within the limits of the file system,
    [install_skill] raises only where it makes the target root.  When
    the target root and the target path of the resolved name are within
    the limits and no regular file sits at the target root or above it,
    the call returns a message, whatever [git] does; with a regular file
    at the target root or above it the call raises and leaves the world
    as it was. *)
Theorem install_raises_only_at_mkdir skill_ref skills_dir w :
  (within_limits skills_dir = true ->
   (forall repo_url skill_name,
       resolve_ref skill_ref = Some (repo_url, skill_name) ->
       within_limits (path_div skills_dir skill_name) = true) ->
   obstructed (files w) skills_dir = false ->
   exists msg, (install_skill git describe skill_ref skills_dir w).1 = Ret msg)
  /\ (obstructed (files w) skills_dir = true ->
      exists e, install_skill git describe skill_ref skills_dir w = (Raise e, w)).
Proof.
  split.
  - intros _ _ O. apply obstructed_mkdir in O as [fs' M].
    unfold install_skill, bind at 1, mkdir, on_files. rewrite M.
    destruct (resolve_ref skill_ref) as [[repo_url skill_name]|]; [|simpl; eauto].
    unfold bind, exists_path, on_files. cbn [files spawned].
    destruct (path_exists fs' (path_div skills_dir skill_name)); [simpl; eauto|].
    apply try_except_returns.
  - intros O. apply obstructed_raises in O as [e M]. exists e.
    unfold install_skill, bind at 1, mkdir, on_files. rewrite M. now destruct w.
Qed.

Lemma logs_ret {A} (a : A) : logs 0 (ret a).
Proof. intros w. exists []. simpl. rewrite app_nil_r. repeat split; [lia | constructor]. Qed.

Lemma logs_on_files {A} (f : node -> outcome A * node) : logs 0 (on_files f).
Proof.
  intros w. exists []. unfold on_files. destruct (f (files w)). simpl.
  rewrite app_nil_r. repeat split; [lia | constructor].
Qed.

Lemma logs_le {A} n n' (m : M A) : (n <= n')%nat -> logs n m -> logs n' m.
Proof. intros Le H w. destruct (H w) as (l & E & Len & G). exists l. repeat split; trivial. lia. Qed.

Lemma logs_bind {A B} n1 n2 (m : M A) (k : A -> M B) :
  logs n1 m -> (forall a, logs n2 (k a)) -> logs (n1 + n2) (bind m k).
Proof.
  intros Hm Hk w. unfold bind. destruct (Hm w) as (l1 & E1 & L1 & G1).
  destruct (m w) as [[a|e] w']; simpl in *.
  - destruct (Hk a w') as (l2 & E2 & L2 & G2). exists (l1 ++ l2)%list.
    rewrite E2, E1, app_assoc, length_app. repeat split; [lia|]. now apply Forall_app.
  - exists l1. repeat split; [exact E1 | lia | exact G1].
Qed.

Lemma logs_try_except {A} n (m : M A) (h : exn -> A) :
  logs n m -> logs n (try_except m (fun e => ret (h e))).
Proof.
  intros Hm w. unfold try_except, ret. destruct (Hm w) as (l & E & L & G).
  destruct (m w) as [[a|e] w']; simpl in *; exists l; repeat split; trivial.
Qed.

Lemma logs_subprocess_run argv tail work :
  argv = "git" :: tail -> logs 1 (subprocess_run git argv work).
Proof.
  intros -> w. exists [ "git" :: tail ]. unfold subprocess_run.
  destruct (git ("git" :: tail) (files w)); simpl;
    (repeat split; [lia | repeat constructor]).
Qed.

Lemma logs_fetch repo_url skill_name skills_dir target_dir :
  logs 2 (fetch git repo_url skill_name skills_dir target_dir).
Proof.
  unfold fetch. cbv zeta.
  apply (logs_bind 1 1); [now eapply logs_subprocess_run|]. intros result.
  destruct (negb (returncode result =? 0)%Z); [apply (logs_le 0); [lia | apply logs_ret]|].
  apply (logs_bind 1 0); [now eapply logs_subprocess_run|]. intros _.
  apply (logs_bind 0 0); [apply logs_on_files|]. intros [|].
  - apply (logs_bind 0 0); [apply logs_on_files|]. intros _.
    apply (logs_bind 0 0); [apply logs_on_files|]. intros _. apply logs_ret.
  - apply (logs_bind 0 0); [apply logs_on_files|]. intros _. apply logs_ret.
Qed.

(** X9: a call of [install_skill] hands at most two commands to
    [subprocess.run], after those of the log, and each of them is a run
    of [git]. *)
Theorem install_spawns_only_git skill_ref skills_dir w :
  exists l,
    spawned (install_skill git describe skill_ref skills_dir w).2 = (spawned w ++ l)%list
    /\ (length l <= 2)%nat /\ only_git l.
Proof.
  revert w. change (logs 2 (install_skill git describe skill_ref skills_dir)).
  unfold install_skill.
  apply (logs_bind 0 2); [apply logs_on_files|]. intros _.
  destruct (resolve_ref skill_ref) as [[repo_url skill_name]|];
    [|apply (logs_le 0); [lia | apply logs_ret]].
  apply (logs_bind 0 2); [apply logs_on_files|]. intros [|].
  - apply (logs_le 0); [lia | apply logs_ret].
  - apply logs_try_except, logs_fetch.
Qed.

End Installer.

Lemma install_raises_only_at_mkdir_witness :
  (exists msg, (install_skill git_absent class_name "owner/foo" ["skills"]
                              (fresh empty_tree)).1 = Ret msg)
  /\ (exists e, install_skill git_absent class_name "owner/foo" ["skills"]
                              (fresh skills_is_a_file)
                = (Raise e, fresh skills_is_a_file)).
Proof.
  split.
  - apply (proj1 (install_raises_only_at_mkdir git_absent class_name
                    "owner/foo" ["skills"] (fresh empty_tree))).
    + reflexivity.
    + intros repo_url skill_name H. injection H as <- <-. reflexivity.
    + reflexivity.
  - apply (proj2 (install_raises_only_at_mkdir git_absent class_name
                    "owner/foo" ["skills"] (fresh skills_is_a_file))).
    reflexivity.
Defined.

(** ** More on removing *)

Lemma prune_apart n p q :
  apart p q -> lookup (prune n p) q = lookup n q.
Proof.
  unfold apart. revert n q; induction p as [|c p IH]; intros n q [P Q]; [discriminate|].
  destruct q as [|b q]; [discriminate|].
  simpl in P, Q. destruct n as [text|kids]; [now destruct p|].
  destruct (String.eqb c b) eqn:E.
  - apply String.eqb_eq in E. subst b. rewrite String.eqb_refl in Q. simpl in P, Q.
    destruct p as [|c' p]; [discriminate|].
    change (prune (Dir kids) (c :: c' :: p))
      with (match kids !! c with
            | Some k => Dir (<[c := prune k (c' :: p)]> kids)
            | None => Dir kids
            end).
    destruct (kids !! c) as [k|] eqn:K; [|reflexivity].
    simpl. rewrite lookup_insert_eq, K. now apply IH.
  - apply String.eqb_neq in E.
    destruct p as [|c' p].
    + simpl. now rewrite lookup_delete_ne by congruence.
    + change (prune (Dir kids) (c :: c' :: p))
        with (match kids !! c with
              | Some k => Dir (<[c := prune k (c' :: p)]> kids)
              | None => Dir kids
              end).
      destruct (kids !! c); [|reflexivity].
      simpl. now rewrite lookup_insert_ne by congruence.
Qed.

Lemma graft_apart n p x q :
  apart p q -> lookup (graft n p x) q = lookup n q.
Proof.
  unfold apart. revert n q; induction p as [|c p IH]; intros n q [P Q]; [discriminate|].
  destruct q as [|b q]; [discriminate|].
  simpl in P, Q. simpl.
  destruct (String.eqb c b) eqn:E.
  - apply String.eqb_eq in E. subst b. rewrite String.eqb_refl in Q. simpl in P, Q.
    rewrite lookup_insert_eq.
    destruct (kids_of n !! c) as [k|] eqn:K; simpl.
    + now apply IH.
    + rewrite IH by (split; assumption).
      destruct q; [discriminate | reflexivity].
  - apply String.eqb_neq in E. now rewrite lookup_insert_ne by congruence.
Qed.

Section Removing.
Variable describe : exn -> string.

(** X10: for a target path within the limits of the file system,
    [remove_skill] returns a message, hands no command to
    [subprocess.run], and leaves every path within the limits as it was
    that lies neither at, below nor above the directory of the skill. *)
Theorem remove_never_raises_nor_spawns skill_ref skills_dir w :
  within_limits (path_div skills_dir (remove_name skill_ref)) = true ->
  exists msg w',
    remove_skill describe skill_ref skills_dir w = (Ret msg, w')
    /\ spawned w' = spawned w
    /\ forall q, within_limits q = true ->
                 apart (path_div skills_dir (remove_name skill_ref)) q ->
                 lookup (files w') q = lookup (files w) q.
Proof.
  intros _. destruct w as [fs log].
  unfold remove_skill, bind, exists_path, on_files, try_except, ret.
  cbv zeta. unfold path_exists, rmtree. simpl.
  destruct (lookup fs (path_div skills_dir (remove_name skill_ref)))
    as [[text|kids]|] eqn:L; simpl; rewrite ?L; simpl.
  - eexists _, _. repeat split.
  - destruct (path_div skills_dir (remove_name skill_ref)) as [|c p] eqn:T.
    + eexists _, _. split; [reflexivity|]. split; [reflexivity|].
      intros q _ [A _]. discriminate A.
    + eexists _, _. split; [reflexivity|]. split; [reflexivity|].
      intros q _ A. exact (prune_apart fs (c :: p) q A).
  - eexists _, _. repeat split.
Qed.

(** X11: after [remove_skill] has removed the directory of a skill, a
    second call for the same reference answers that the skill is not
    installed and changes nothing. *)
Theorem remove_twice skill_ref skills_dir w :
  is_dir (files w) (path_div skills_dir (remove_name skill_ref)) = true ->
  path_div skills_dir (remove_name skill_ref) <> [] ->
  exists w',
    remove_skill describe skill_ref skills_dir w
    = (Ret ("Successfully removed skill '" ++ remove_name skill_ref ++ "'."), w')
    /\ remove_skill describe skill_ref skills_dir w'
       = (Ret ("Skill '" ++ remove_name skill_ref ++ "' is not installed."), w').
Proof.
  intros D N. eexists. split; [now apply remove_directory|].
  set (w' := {| files := _; spawned := _ |}).
  assert (X : lookup (files w') (path_div skills_dir (remove_name skill_ref)) = None).
  { unfold w'. cbn [files].
    rewrite <- (app_nil_path (path_div skills_dir (remove_name skill_ref))) at 2.
    now apply prune_gone. }
  destruct (remove_without_directory describe skill_ref skills_dir w') as (msg & E & Hm).
  { unfold is_dir. now rewrite X. }
  rewrite E. do 2 f_equal. apply Hm. unfold path_exists. now rewrite X.
Qed.

End Removing.

Lemma remove_never_raises_nor_spawns_witness :
  exists msg w',
    remove_skill class_name "owner/foo" ["skills"] (fresh (three_skills no_name_md))
    = (Ret msg, w')
    /\ spawned w' = []
    /\ lookup (files w') ["skills"; "alpha"]
       = lookup (three_skills no_name_md) ["skills"; "alpha"].
Proof.
  destruct (remove_never_raises_nor_spawns class_name "owner/foo" ["skills"]
              (fresh (three_skills no_name_md)) eq_refl) as (msg & w' & E & S & F).
  exists msg, w'. split; [exact E|]. split; [exact S|].
  apply F; [reflexivity | split; reflexivity].
Defined.

Lemma remove_twice_witness :
  exists w',
    remove_skill class_name "owner/foo" ["skills"] (fresh foo_installed)
    = (Ret "Successfully removed skill 'foo'.", w')
    /\ remove_skill class_name "owner/foo" ["skills"] w'
       = (Ret "Skill 'foo' is not installed.", w').
Proof.
  apply (remove_twice class_name "owner/foo" ["skills"] (fresh foo_installed)).
  - reflexivity.
  - discriminate.
Defined.

(** ** More on fetching *)

Lemma plain_temp s : plain_name s -> plain_name (".tmp_" ++ s).
Proof.
  intros (C & _ & _). repeat split; [exact C | discriminate | discriminate].
Qed.

Lemma length_append s t : String.length (s ++ t) = (String.length s + String.length t)%nat.
Proof. induction s as [|c s IH]; [reflexivity|]. rewrite append_cons. simpl. now rewrite IH. Qed.

Lemma temp_name_differs s : String.eqb (".tmp_" ++ s) s = false.
Proof.
  apply String.eqb_neq. intros E. apply (f_equal String.length) in E.
  rewrite length_append in E. simpl in E. lia.
Qed.

Lemma is_prefix_app_same p q r : is_prefix (p ++ q)%list (p ++ r)%list = is_prefix q r.
Proof. induction p as [|a p IH]; [reflexivity|]. simpl. now rewrite String.eqb_refl. Qed.

Lemma is_prefix_below p q : is_prefix (p ++ q)%list p = match q with [] => true | _ => false end.
Proof.
  rewrite <- (app_nil_r p) at 2. rewrite is_prefix_app_same. now destruct q.
Qed.

Lemma is_prefix_cons a p b q :
  is_prefix (a :: p) (b :: q) = String.eqb a b && is_prefix p q.
Proof. reflexivity. Qed.

Lemma parent_app p c : parent (p ++ [c])%list = p.
Proof. unfold parent. apply removelast_last. Qed.

(** a move to a free place in an existing directory *)
Lemma move_into_place fs src dst x :
  lookup fs src = Some x -> lookup fs dst = None ->
  is_dir fs (parent dst) = true -> is_prefix src dst = false ->
  move fs src dst = (Ret tt, graft (prune fs src) dst x).
Proof.
  intros S D P N.
  assert (Dd : is_dir fs dst = false) by (unfold is_dir; now rewrite D).
  assert (Dx : path_exists fs dst = false) by (unfold path_exists; now rewrite D).
  unfold move. rewrite S, Dd. cbn [andb]. destruct x as [text|kids].
  - now rewrite P.
  - rewrite N, Dx. now rewrite (mkdir_parents_existing _ _ P).
Qed.

Section Fetching.
Variable git : list string -> node -> run_result.
Variable describe : exn -> string.

Lemma install_fetches skill_ref skills_dir w repo_url skill_name
        fs1 err tree rc2 err2 tree2 x :
  let temp_dir := (skills_dir ++ [(".tmp_" ++ skill_name)%string])%list in
  let target_dir := (skills_dir ++ [skill_name])%list in
  let clone := ["git"; "clone"; "--depth"; "1"; "--filter=blob:none"; "--sparse";
                repo_url; str_path temp_dir] in
  let checkout := ["git"; "-C"; str_path temp_dir; "sparse-checkout"; "set";
                   "skills/" ++ skill_name] in
  let fs2 := graft fs1 temp_dir (Dir tree) in
  let fs3 := if (rc2 =? 0)%Z then graft fs2 temp_dir (Dir tree2) else fs2 in
  resolve_ref skill_ref = Some (repo_url, skill_name) ->
  plain_name skill_name ->
  mkdir_parents (files w) skills_dir = Ret fs1 ->
  path_exists fs1 target_dir = false ->
  git clone fs1 = Exited 0 err tree ->
  git checkout fs2 = Exited rc2 err2 tree2 ->
  lookup fs3 (temp_dir ++ ["skills"; skill_name])%list = Some x ->
  exists w',
    install_skill git describe skill_ref skills_dir w
    = (Ret ("Successfully installed skill '" ++ skill_name ++ "'."), w')
    /\ lookup (files w') target_dir = Some x
    /\ path_exists (files w') temp_dir = false
    /\ is_dir (files w') skills_dir = true
    /\ spawned w' = (spawned w ++ [clone; checkout])%list.
Proof.
  intros temp_dir target_dir clone checkout fs2 fs3 R Pn M X G1 G2 S.
  assert (D1 := mkdir_parents_is_dir _ _ _ M).
  assert (Et : path_div skills_dir (".tmp_" ++ skill_name) = temp_dir)
    by (apply path_div_plain, plain_temp, Pn).
  assert (Eg : path_div skills_dir skill_name = target_dir)
    by (apply path_div_plain, Pn).
  set (src := (temp_dir ++ ["skills"; skill_name])%list) in *.
  assert (Es : path_div (path_div temp_dir "skills") skill_name = src).
  { change (path_div temp_dir "skills") with (temp_dir ++ ["skills"])%list.
    rewrite (path_div_plain _ _ Pn). unfold src. now rewrite <- app_assoc. }
  (* the paths stand apart *)
  assert (At : apart temp_dir target_dir).
  { unfold apart, temp_dir, target_dir. rewrite !is_prefix_app_same, !is_prefix_cons.
    rewrite (String.eqb_sym skill_name), temp_name_differs. now split. }
  assert (Ptd : is_prefix temp_dir skills_dir = false) by apply is_prefix_below.
  assert (Pgd : is_prefix target_dir skills_dir = false) by apply is_prefix_below.
  assert (Psd : is_prefix src skills_dir = false).
  { unfold src, temp_dir. rewrite <- app_assoc. apply is_prefix_below. }
  assert (Pst : is_prefix src temp_dir = false) by apply is_prefix_below.
  assert (Psg : is_prefix src target_dir = false).
  { unfold src, temp_dir, target_dir. rewrite <- app_assoc, is_prefix_app_same.
    change ([(".tmp_" ++ skill_name)%string] ++ ["skills"; skill_name])%list
      with [(".tmp_" ++ skill_name)%string; "skills"; skill_name].
    now rewrite is_prefix_cons, temp_name_differs. }
  (* the tree after the two runs of git *)
  assert (D3 : is_dir fs3 skills_dir = true).
  { unfold fs3, fs2. destruct (rc2 =? 0)%Z; repeat apply graft_keeps; assumption. }
  assert (T3 : is_dir fs3 temp_dir = true).
  { unfold fs3, fs2, is_dir. destruct (rc2 =? 0)%Z; now rewrite lookup_graft. }
  assert (X3 : lookup fs3 target_dir = None).
  { unfold path_exists in X. destruct (lookup fs1 target_dir) eqn:L1; [discriminate|].
    unfold fs3, fs2. destruct (rc2 =? 0)%Z; rewrite !graft_apart by exact At; exact L1. }
  set (fs4 := graft (prune fs3 src) target_dir x).
  assert (Mv : move fs3 src target_dir = (Ret tt, fs4)).
  { apply move_into_place; trivial. unfold target_dir. now rewrite parent_app. }
  assert (T4 : is_dir fs4 temp_dir = true).
  { unfold fs4. apply graft_keeps; [now apply prune_keeps | apply At]. }
  assert (Rm : rmtree fs4 temp_dir = (Ret tt, prune fs4 temp_dir)).
  { unfold is_dir in T4. destruct (lookup fs4 temp_dir) as [[?|k]|] eqn:L4; try discriminate.
    apply (rmtree_directory _ _ k L4). unfold temp_dir. now destruct skills_dir. }
  exists {| files := prune fs4 temp_dir; spawned := (spawned w ++ [clone; checkout])%list |}.
  split.
  - unfold install_skill, bind at 1, mkdir, on_files. rewrite M, R.
    unfold bind at 1, exists_path, on_files. cbn [files spawned]. rewrite Eg, X.
    unfold try_except, fetch. rewrite Et, Es. fold clone checkout.
    unfold bind at 1, subprocess_run. cbn [files spawned]. rewrite G1.
    cbn [returncode stderr Z.eqb negb]. unfold bind at 1. cbn [files spawned].
    fold fs2. rewrite G2. fold fs3.
    unfold bind at 1, exists_path, on_files. cbn [files spawned].
    unfold path_exists. rewrite S.
    unfold bind, on_files, ret. cbn [files spawned]. rewrite Mv. cbn [files spawned].
    rewrite Rm. rewrite <- app_assoc. reflexivity.
  - cbn [files spawned]. repeat split.
    + rewrite prune_apart by exact At. unfold fs4. apply lookup_graft.
    + unfold path_exists. rewrite <- (app_nil_path temp_dir) at 2.
      rewrite prune_gone; [reflexivity|]. unfold temp_dir. now destruct skills_dir.
    + apply prune_keeps; [|exact Ptd]. unfold fs4.
      apply graft_keeps; [|exact Pgd]. now apply prune_keeps.
Qed.

(** the same for a path that exists, directory or not *)
Lemma already_present skill_ref skills_dir w repo_url skill_name :
  resolve_ref skill_ref = Some (repo_url, skill_name) ->
  is_dir (files w) skills_dir = true ->
  path_exists (files w) (path_div skills_dir skill_name) = true ->
  install_skill git describe skill_ref skills_dir w
  = (Ret ("Skill '" ++ skill_name
          ++ "' is already installed. Remove it first to reinstall."), w).
Proof.
  intros R D X.
  unfold install_skill, bind, mkdir, on_files, exists_path.
  rewrite (mkdir_parents_existing _ _ D), R. simpl. rewrite X. now destruct w.
Qed.

End Fetching.

(** X12: when the clone succeeds and the path [skills/<name>] is in the
    work tree after the checkout, [install_skill] reports success for a
    name of one component not yet installed: what was at that path is
    then at [<target root>/<name>], the temporary directory is gone, the
    target root is a directory, and the two commands are in the log. *)
Theorem install_fetches_skill git describe skill_ref skills_dir w repo_url skill_name
        fs1 err tree rc2 err2 tree2 x :
  let temp_dir := (skills_dir ++ [(".tmp_" ++ skill_name)%string])%list in
  let target_dir := (skills_dir ++ [skill_name])%list in
  let clone := ["git"; "clone"; "--depth"; "1"; "--filter=blob:none"; "--sparse";
                repo_url; str_path temp_dir] in
  let checkout := ["git"; "-C"; str_path temp_dir; "sparse-checkout"; "set";
                   "skills/" ++ skill_name] in
  let fs2 := graft fs1 temp_dir (Dir tree) in
  let fs3 := if (rc2 =? 0)%Z then graft fs2 temp_dir (Dir tree2) else fs2 in
  resolve_ref skill_ref = Some (repo_url, skill_name) ->
  plain_name skill_name ->
  mkdir_parents (files w) skills_dir = Ret fs1 ->
  path_exists fs1 target_dir = false ->
  git clone fs1 = Exited 0 err tree ->
  git checkout fs2 = Exited rc2 err2 tree2 ->
  lookup fs3 (temp_dir ++ ["skills"; skill_name])%list = Some x ->
  exists w',
    install_skill git describe skill_ref skills_dir w
    = (Ret ("Successfully installed skill '" ++ skill_name ++ "'."), w')
    /\ lookup (files w') target_dir = Some x
    /\ path_exists (files w') temp_dir = false
    /\ is_dir (files w') skills_dir = true
    /\ spawned w' = (spawned w ++ [clone; checkout])%list.
Proof. exact (install_fetches git describe skill_ref skills_dir w repo_url skill_name
                fs1 err tree rc2 err2 tree2 x). Qed.

Lemma install_fetches_skill_witness :
  exists w',
    install_skill git_fetches_foo class_name "owner/foo" ["skills"] (fresh empty_tree)
    = (Ret "Successfully installed skill 'foo'.", w')
    /\ lookup (files w') ["skills"; "foo"] = Some (skill_dir (skill_md "foo"))
    /\ path_exists (files w') ["skills"; ".tmp_foo"] = false
    /\ is_dir (files w') ["skills"] = true
    /\ spawned w'
       = [["git"; "clone"; "--depth"; "1"; "--filter=blob:none"; "--sparse";
           "https://github.com/owner/skills"; "/skills/.tmp_foo"];
          ["git"; "-C"; "/skills/.tmp_foo"; "sparse-checkout"; "set"; "skills/foo"]].
Proof.
  apply (install_fetches_skill git_fetches_foo class_name "owner/foo" ["skills"]
           (fresh empty_tree) "https://github.com/owner/skills" "foo"
           (Dir {[ "skills" := Dir ∅ ]}) "" {[ "README.md" := File "skills" ]}
           0%Z ""
           {[ "README.md" := File "skills";
              "skills" := Dir {[ "foo" := skill_dir (skill_md "foo") ]} ]}
           (skill_dir (skill_md "foo")));
    try (vm_compute; reflexivity).
  split; [reflexivity | split; discriminate].
Defined.

(** X13: after such an install, a second call of [install_skill] for the
    same reference, whatever [git] would do, answers that the skill is
    already installed and leaves the world as it is. *)
Theorem install_twice git describe skill_ref skills_dir w repo_url skill_name
        fs1 err tree rc2 err2 tree2 x :
  let temp_dir := (skills_dir ++ [(".tmp_" ++ skill_name)%string])%list in
  let target_dir := (skills_dir ++ [skill_name])%list in
  let clone := ["git"; "clone"; "--depth"; "1"; "--filter=blob:none"; "--sparse";
                repo_url; str_path temp_dir] in
  let checkout := ["git"; "-C"; str_path temp_dir; "sparse-checkout"; "set";
                   "skills/" ++ skill_name] in
  let fs2 := graft fs1 temp_dir (Dir tree) in
  let fs3 := if (rc2 =? 0)%Z then graft fs2 temp_dir (Dir tree2) else fs2 in
  resolve_ref skill_ref = Some (repo_url, skill_name) ->
  plain_name skill_name ->
  mkdir_parents (files w) skills_dir = Ret fs1 ->
  path_exists fs1 target_dir = false ->
  git clone fs1 = Exited 0 err tree ->
  git checkout fs2 = Exited rc2 err2 tree2 ->
  lookup fs3 (temp_dir ++ ["skills"; skill_name])%list = Some x ->
  exists w',
    install_skill git describe skill_ref skills_dir w
    = (Ret ("Successfully installed skill '" ++ skill_name ++ "'."), w')
    /\ forall git',
         install_skill git' describe skill_ref skills_dir w'
         = (Ret ("Skill '" ++ skill_name
                 ++ "' is already installed. Remove it first to reinstall."), w').
Proof.
  intros temp_dir target_dir clone checkout fs2 fs3 R Pn M X G1 G2 S.
  destruct (install_fetches git describe skill_ref skills_dir w repo_url skill_name
              fs1 err tree rc2 err2 tree2 x R Pn M X G1 G2 S)
    as (w' & I & T & _ & D & _).
  exists w'. split; [exact I|]. intros git'.
  apply (already_present git' describe skill_ref skills_dir w' repo_url skill_name R D).
  rewrite (path_div_plain _ _ Pn). unfold path_exists. unfold target_dir in T. now rewrite T.
Qed.

Lemma install_twice_witness :
  exists w',
    install_skill git_fetches_foo class_name "owner/foo" ["skills"] (fresh empty_tree)
    = (Ret "Successfully installed skill 'foo'.", w')
    /\ forall git',
         install_skill git' class_name "owner/foo" ["skills"] w'
         = (Ret "Skill 'foo' is already installed. Remove it first to reinstall.", w').
Proof.
  apply (install_twice git_fetches_foo class_name "owner/foo" ["skills"]
           (fresh empty_tree) "https://github.com/owner/skills" "foo"
           (Dir {[ "skills" := Dir ∅ ]}) "" {[ "README.md" := File "skills" ]}
           0%Z ""
           {[ "README.md" := File "skills";
              "skills" := Dir {[ "foo" := skill_dir (skill_md "foo") ]} ]}
           (skill_dir (skill_md "foo")));
    try (vm_compute; reflexivity).
  split; [reflexivity | split; discriminate].
Defined.

(** ** More on references *)

Lemma split_once_spec ch s a b :
  split_once ch s = Some (a, b) -> s = a ++ String ch b /\ contains ch a = false.
Proof.
  revert a; induction s as [|c s IH]; intros a; simpl; [discriminate|].
  destruct (Ascii.eqb c ch) eqn:E.
  - intros H. inversion H; subst. apply Ascii.eqb_eq in E. subst c. now split.
  - destruct (split_once ch s) as [[a' b']|]; [|discriminate].
    intros H. inversion H; subst. destruct (IH a' eq_refl) as [-> C].
    split; [reflexivity|]. simpl. now rewrite E.
Qed.

(** X14: how [install_skill] reads a reference.  A reference that starts
    with [http] is its own repository URL, and the skill name is the text
    after the last [/] once closing slashes are cut: it is not empty and
    has no [/].  Another reference with a [/] is cut at its first [/] into
    an owner without [/] and the skill name, and the repository is
    [https://github.com/<owner>/skills].  No other reference is
    accepted. *)
Theorem resolve_ref_shape skill_ref :
  (forall repo_url skill_name,
      resolve_ref skill_ref = Some (repo_url, skill_name) ->
      (startswith "http" skill_ref = true
       /\ repo_url = skill_ref
       /\ skill_name = trailing_segment (rstrip_char slash skill_ref)
       /\ skill_name <> "" /\ contains slash skill_name = false)
      \/ (startswith "http" skill_ref = false
          /\ exists owner,
               skill_ref = owner ++ String slash skill_name
               /\ contains slash owner = false
               /\ repo_url = "https://github.com/" ++ owner ++ "/skills"))
  /\ (resolve_ref skill_ref = None
      <-> startswith "http" skill_ref = false /\ contains slash skill_ref = false).
Proof.
  unfold resolve_ref. split.
  - intros repo_url skill_name.
    destruct (startswith "http" skill_ref) eqn:Hh.
    + intros H. injection H as <- <-. left. rewrite last_piece_trailing.
      repeat split; [|apply trailing_without_sep].
      intros T. apply trailing_empty in T. rewrite rstrip_char_clean in T.
      destruct skill_ref as [|c s]; [discriminate|].
      assert (Hc : Ascii.eqb c slash = false).
      { destruct (Ascii.eqb c slash) eqn:Hc; [|reflexivity].
        apply Ascii.eqb_eq in Hc. subst c.
        change (startswith "http" (String slash s)) with false in Hh. discriminate. }
      destruct (rstrip_char_head slash c s Hc) as [r R]. rewrite R in T.
      destruct T; discriminate.
    + destruct (contains slash skill_ref); [|discriminate].
      destruct (split_once slash skill_ref) as [[owner name]|] eqn:S; [|discriminate].
      intros H. injection H as <- <-. right. split; [reflexivity|].
      destruct (split_once_spec _ _ _ _ S) as [E C]. now exists owner.
  - destruct (startswith "http" skill_ref); [split; [discriminate | intros [? _]; discriminate]|].
    destruct (contains slash skill_ref) eqn:C.
    + destruct (split_once slash skill_ref) as [[owner name]|] eqn:S.
      * split; [discriminate | intros [_ ?]; discriminate].
      * exfalso. clear -C S. induction skill_ref as [|c s IH]; simpl in *; [discriminate|].
        destruct (Ascii.eqb c slash); simpl in *; [discriminate|].
        destruct (split_once slash s) as [[? ?]|]; [discriminate|]. now apply IH.
    + now split.
Qed.

Lemma resolve_ref_shape_witness :
  (startswith "http" "https://github.com/o/foo/" = true
   /\ "https://github.com/o/foo/" = "https://github.com/o/foo/"
   /\ "foo" = trailing_segment (rstrip_char slash "https://github.com/o/foo/")
   /\ "foo" <> "" /\ contains slash "foo" = false)
  \/ (startswith "http" "https://github.com/o/foo/" = false
      /\ exists owner,
           "https://github.com/o/foo/" = owner ++ String slash "foo"
           /\ contains slash owner = false
           /\ "https://github.com/o/foo/" = "https://github.com/" ++ owner ++ "/skills").
Proof.
  apply (proj1 (resolve_ref_shape "https://github.com/o/foo/")
           "https://github.com/o/foo/" "foo").
  reflexivity.
Defined.

(** X15: [install_skill] and [remove_skill] resolve the same skill name
    exactly for the references that start with [http] and do not end in
    [/], and for those that do not start with [http] and have one [/]. *)
Theorem names_agree_exactly skill_ref :
  install_name skill_ref = Some (remove_name skill_ref)
  <-> (startswith "http" skill_ref = true /\ ends_with slash skill_ref = false)
      \/ (startswith "http" skill_ref = false /\ occurrences slash skill_ref = 1%nat).
Proof. split; [apply names_agree_only | apply names_agree]. Qed.

Lemma names_agree_exactly_witness :
  install_name "owner/foo" = Some (remove_name "owner/foo")
  /\ ((startswith "http" "a/b/c" = true /\ ends_with slash "a/b/c" = false)
      \/ (startswith "http" "a/b/c" = false /\ occurrences slash "a/b/c" = 1%nat)
      -> False).
Proof.
  split.
  - apply (proj2 (names_agree_exactly "owner/foo")). right. split; reflexivity.
  - intros H. apply (proj2 (names_agree_exactly "a/b/c")) in H. discriminate H.
Defined.



(** ** More on the active-skill store *)

Lemma skip_blank_all s : all_chars is_blank s = true -> skip_blank s = "".
Proof.
  induction s as [|c s IH]; [reflexivity|]. simpl. intros H.
  apply andb_prop in H as [Hc Hs]. rewrite Hc. now apply IH.
Qed.

(** X18: [get_active_skill] returns no value when there is no state file,
    and when the state file is empty or holds blanks only. *)
Theorem get_active_skill_without_record (st : state_file) :
  match st with
  | None => True
  | Some text => all_chars is_blank text = true
  end ->
  get_active_skill st = None.
Proof.
  destruct st as [text|]; [|reflexivity]. intros B.
  unfold get_active_skill, loads. rewrite (skip_blank_all text B).
  replace (2 * String.length text + 2)%nat with (S (2 * String.length text + 1)) by lia.
  reflexivity.
Qed.

Lemma get_active_skill_without_record_witness :
  get_active_skill (Some (String nl "  ")) = None.
Proof.
  apply (get_active_skill_without_record (Some (String nl "  "))). reflexivity.
Defined.
